(** * Needs Pyramid Tracker: the state logic of [needsPyramidTracker.tsx]

    The component keeps three pieces of React state (the six ratings, the
    snapshot history, the user name) and mirrors them in [localStorage]
    under three fixed keys.  This development embeds

    - the JavaScript values involved: arrays of numbers living in a heap of
      array objects (so that copies and aliases are distinguished), strings,
      and the text produced and accepted by [JSON.stringify]/[JSON.parse];
    - [localStorage] as a finite map from keys to strings;
    - the event handlers [handleSliderChange], [saveSnapshot], [resetData],
      the three [useEffect] blocks, and React's commit discipline: a handler
      runs against the state of the last render, its [set...] calls are
      queued, the queue is applied, and then every effect whose dependency
      changed (by [Object.is]) runs.

    Numbers are integers ([Z]) of magnitude up to 2^53, the range in which
    every integer is a JavaScript number and prints in plain digits;
    strings are sequences of code units below 256 ([ascii]).  Texts that
    denote other values are parsed ([JSON.parse] accepts and rejects what
    the JSON grammar does) but what they denote is marked [JOutside].  The
    storage is taken to be available and unbounded ([getItem] and [setItem]
    do not throw), and React's development-only second run of the effects
    is left out.  Of the view, the data handed to the pyramid, to the chart
    and to the dialog is embedded; the layout arithmetic of the pyramid is
    not. *)

From Stdlib Require Import ZArith String Ascii Decimal DecimalString
  DecimalFacts DecimalPos DecimalN DecimalZ.
From stdpp Require Import base option list gmap strings.

Set Warnings "-register-all".

Local Open Scope string_scope.
Local Open Scope list_scope.
Local Open Scope Z_scope.

(** ** Characters *)

Definition code (c : ascii) : N := N_of_ascii c.

Definition dquote : ascii := "034"%char.
Definition backslash : ascii := "092"%char.

Definition is_digit (c : ascii) : bool :=
  ((48 <=? code c) && (code c <=? 57))%N.

(** ** JavaScript values held in a [number[]]

    [Undefined] is what a read past the end, a hole, or [value[0]] of an
    empty array yields. *)

Inductive jsval : Type :=
  | Num (z : Z)
  | Undefined.

#[global] Instance jsval_eq_dec : EqDecision jsval.
Proof. solve_decision. Defined.

(** ** Results of operations that can throw *)

Inductive error : Type :=
  | SyntaxError        (* thrown by JSON.parse *)
  | OutsideModel       (* a value the embedding does not represent *)
  | OutOfFuel.

Inductive result (A : Type) : Type :=
  | Ok (a : A)
  | Err (e : error).
Arguments Ok {A} a.
Arguments Err {A} e.

#[global] Instance result_ret : MRet result := fun A a => Ok a.
#[global] Instance result_bind : MBind result := fun A B k r =>
  match r with
  | Ok a => k a
  | Err e => Err e
  end.

(** ** JSON text *)

Module JSON.

(** [JOutside] stands for a value that is well-formed JSON but has a part
    the embedding has no term for: a number that is not an integer of
    magnitude up to 2^53, a string with a code unit above 255. *)
Inductive json : Type :=
  | JNull
  | JBool (b : bool)
  | JNum (z : Z)
  | JStr (s : string)
  | JArr (l : list json)
  | JObj (l : list (string * json))
  | JOutside.

(** *** JSON.stringify *)

(** An integral number prints as its decimal digits.  This is what
    [JSON.stringify] writes for the integers of magnitude up to 2^53 (see
    [exact] below); from 10^21 on JavaScript writes an exponent, and the
    statements about stored text keep to pages whose numbers are [exact]. *)
Definition stringify_number (z : Z) : string :=
  NilEmpty.string_of_int (Z.to_int z).

Definition hex_digit (n : N) : ascii :=
  if (n <? 10)%N then ascii_of_N (48 + n) else ascii_of_N (87 + n).

(** QuoteJSONString: the two-character escapes, [\u00XX] for the other
    control characters, everything else as it is. *)
Definition quote_char (c : ascii) : string :=
  let n := code c in
  if (n =? 34)%N then String backslash (String dquote "")
  else if (n =? 92)%N then String backslash (String backslash "")
  else if (n =? 8)%N then String backslash "b"
  else if (n =? 9)%N then String backslash "t"
  else if (n =? 10)%N then String backslash "n"
  else if (n =? 12)%N then String backslash "f"
  else if (n =? 13)%N then String backslash "r"
  else if (n <? 32)%N then
    String backslash
      (String "u" (String "0" (String "0"
        (String (hex_digit (n / 16)) (String (hex_digit (n mod 16)) "")))))
  else String c "".

Fixpoint quote_body (s : string) : string :=
  match s with
  | EmptyString => ""
  | String c r => quote_char c +:+ quote_body r
  end.

Definition stringify_string (s : string) : string :=
  String dquote (quote_body s +:+ String dquote "").

(** An array entry: [undefined] is written as [null]. *)
Definition stringify_entry (v : jsval) : string :=
  match v with
  | Num z => stringify_number z
  | Undefined => "null"
  end.

Fixpoint join_comma (l : list string) : string :=
  match l with
  | [] => ""
  | [x] => x
  | x :: r => x +:+ "," +:+ join_comma r
  end.

Definition stringify_array (a : list jsval) : string :=
  "[" +:+ join_comma (map stringify_entry a) +:+ "]".

(** *** JSON.parse *)

Definition is_ws (c : ascii) : bool :=
  let n := code c in
  ((n =? 32) || (n =? 9) || (n =? 10) || (n =? 13))%N.

Fixpoint skip_ws (s : string) : string :=
  match s with
  | EmptyString => ""
  | String c r => if is_ws c then skip_ws r else s
  end.

Fixpoint span_digits (s : string) : string * string :=
  match s with
  | EmptyString => ("", "")
  | String c r =>
      if is_digit c
      then let (d, rest) := span_digits r in (String c d, rest)
      else ("", s)
  end.

Fixpoint strip_prefix (p s : string) : option string :=
  match p, s with
  | EmptyString, _ => Some s
  | String a p', String b s' =>
      if (code a =? code b)%N then strip_prefix p' s' else None
  | String _ _, EmptyString => None
  end.

(** The largest magnitude up to which every integer is a JavaScript
    number. *)
Definition max_exact : Z := 9007199254740992.

Definition starts_fraction (s : string) : bool :=
  match s with
  | String c _ =>
      let n := code c in ((n =? 46) || (n =? 101) || (n =? 69))%N
  | EmptyString => false
  end.

(** The number a run of digits denotes. *)
Definition digits_value (ds : string) : Z :=
  match NilEmpty.uint_of_string ds with
  | Some u => Z.of_uint u
  | None => 0
  end.

(** The fraction, if there is one: a point and at least one digit. *)
Definition parse_fraction (s : string) : result (string * string) :=
  match s with
  | String c r =>
      if (code c =? 46)%N then
        let '(fs, rest) := span_digits r in
        match fs with
        | EmptyString => Err SyntaxError
        | String _ _ => Ok (fs, rest)
        end
      else Ok ("", s)
  | EmptyString => Ok ("", s)
  end.

(** The exponent, if there is one: [e] or [E], an optional sign and at
    least one digit. *)
Definition parse_exponent (s : string) : result (Z * string) :=
  match s with
  | String c r =>
      if ((code c =? 101) || (code c =? 69))%N then
        let '(neg, r1) :=
          match r with
          | String sign r' =>
              if (code sign =? 43)%N then (false, r')
              else if (code sign =? 45)%N then (true, r')
              else (false, r)
          | EmptyString => (false, r)
          end in
        let '(es, rest) := span_digits r1 in
        match es with
        | EmptyString => Err SyntaxError
        | String _ _ =>
            Ok (if neg then - digits_value es else digits_value es, rest)
        end
      else Ok (0, s)
  | EmptyString => Ok (0, s)
  end.

(** [m * 10^e] for [0 <= m], when that is an integer no larger than
    [max_exact].  The two comparisons made first only keep the powers of
    ten small: a non-zero [m] times [10^17] is above [max_exact], and a
    non-zero [m] below [2^(-e)] is not a multiple of [10^(-e)]. *)
Definition scale (m e : Z) : option Z :=
  if m =? 0 then Some 0
  else if 0 <=? e then
    if e <=? 16 then
      let z := m * 10 ^ e in
      if z <=? max_exact then Some z else None
    else None
  else if Z.log2 m + 1 <? - e then None
  else
    let d := 10 ^ (- e) in
    if (m mod d =? 0) && (m / d <=? max_exact) then Some (m / d) else None.

(** A number: the digits of its integral part (a single 0, or digits that
    do not start with 0), then an optional fraction and an optional
    exponent.  Its value is the number with digits [ds ++ fs] times ten to
    the exponent less the length of the fraction; where that is not an
    integer of the embedding the value is [JOutside].  [-0] is read as [0],
    which it equals and prints as. *)
Definition parse_digits (neg : bool) (s : string) : result (json * string) :=
  let '(ds, r0) := span_digits s in
  match ds with
  | EmptyString => Err SyntaxError
  | String c ds' =>
      if ((code c =? 48)%N && negb (String.eqb ds' ""))%bool
      then Err SyntaxError
      else
        '(fs, r1) ← parse_fraction r0;
        '(e, rest) ← parse_exponent r1;
        Ok (match scale (digits_value (ds +:+ fs))
                    (e - Z.of_nat (String.length fs)) with
            | Some z => JNum (if neg then - z else z)
            | None => JOutside
            end, rest)
  end.

(** An optional minus sign, then the digits. *)
Definition parse_number (s : string) : result (json * string) :=
  match s with
  | String c r =>
      if (code c =? 45)%N then parse_digits true r else parse_digits false s
  | EmptyString => Err SyntaxError
  end.

(** Texts that can follow the digits of an integer. *)
Definition ends_number (s : string) : Prop :=
  match s with
  | String c _ => is_digit c = false /\ starts_fraction s = false
  | EmptyString => True
  end.

(** The integers that are JavaScript numbers and that [JSON.stringify]
    writes in plain digits. *)
Definition exact (z : Z) : Prop := - max_exact <= z <= max_exact.

Definition hex_value (c : ascii) : option N :=
  let n := code c in
  if ((48 <=? n) && (n <=? 57))%N then Some (n - 48)%N
  else if ((97 <=? n) && (n <=? 102))%N then Some (n - 87)%N
  else if ((65 <=? n) && (n <=? 70))%N then Some (n - 55)%N
  else None.

Definition hex4 (a b c d : ascii) : option N :=
  match hex_value a, hex_value b, hex_value c, hex_value d with
  | Some x, Some y, Some z, Some w =>
      Some (((x * 16 + y) * 16 + z) * 16 + w)%N
  | _, _, _, _ => None
  end.

Definition unescape (c : ascii) : option ascii :=
  let n := code c in
  if (n =? 34)%N then Some dquote
  else if (n =? 92)%N then Some backslash
  else if (n =? 47)%N then Some "/"%char
  else if (n =? 98)%N then Some "008"%char
  else if (n =? 102)%N then Some "012"%char
  else if (n =? 110)%N then Some "010"%char
  else if (n =? 114)%N then Some "013"%char
  else if (n =? 116)%N then Some "009"%char
  else None.

(** The characters of a string literal after its opening quote, up to and
    including the closing quote.  The string read is [None] when an escape
    names a code unit above 255. *)
Fixpoint parse_string_body (s : string) : result (option string * string) :=
  match s with
  | EmptyString => Err SyntaxError
  | String c r =>
      let n := code c in
      if (n =? 34)%N then Ok (Some "", r)
      else if (n =? 92)%N then
        match r with
        | EmptyString => Err SyntaxError
        | String e r1 =>
            match unescape e with
            | Some c' =>
                '(b, rest) ← parse_string_body r1;
                Ok (option_map (String c') b, rest)
            | None =>
                if (code e =? 117)%N then
                  match r1 with
                  | String h1 (String h2 (String h3 (String h4 r2))) =>
                      match hex4 h1 h2 h3 h4 with
                      | None => Err SyntaxError
                      | Some v =>
                          '(b, rest) ← parse_string_body r2;
                          Ok (if (v <? 256)%N
                              then option_map (String (ascii_of_N v)) b
                              else None, rest)
                      end
                  | _ => Err SyntaxError
                  end
                else Err SyntaxError
            end
        end
      else if (n <? 32)%N then Err SyntaxError
      else '(b, rest) ← parse_string_body r; Ok (option_map (String c) b, rest)
  end.

(** One more member in front of the members of an object. *)
Definition member (k : option string) (v : json)
    (l : option (list (string * json))) : option (list (string * json)) :=
  k' ← k; l' ← l; Some ((k', v) :: l').

Definition parse_literal (s : string) : result (json * string) :=
  match strip_prefix "true" s with
  | Some r => Ok (JBool true, r)
  | None =>
  match strip_prefix "false" s with
  | Some r => Ok (JBool false, r)
  | None =>
  match strip_prefix "null" s with
  | Some r => Ok (JNull, r)
  | None => parse_number s
  end end end.

(** Recursive descent; every nested call is made on a strictly shorter
    text, so [fuel] above twice the length of the text is never used up
    (see [parse_fuel]).  The only error is [SyntaxError], raised where the
    text leaves the JSON grammar (see [parse_throws]). *)
Fixpoint parse_value (fuel : nat) (s : string) {struct fuel}
    : result (json * string) :=
  match fuel with
  | O => Err OutOfFuel
  | S f =>
      match skip_ws s with
      | EmptyString => Err SyntaxError
      | String c r =>
          let n := code c in
          if (n =? 91)%N then
            match skip_ws r with
            | EmptyString => Err SyntaxError
            | String c' r' =>
                if (code c' =? 93)%N then Ok (JArr [], r')
                else
                  '(l, rest) ← parse_elements f (String c' r');
                  Ok (JArr l, rest)
            end
          else if (n =? 123)%N then
            match skip_ws r with
            | EmptyString => Err SyntaxError
            | String c' r' =>
                if (code c' =? 125)%N then Ok (JObj [], r')
                else
                  '(l, rest) ← parse_members f (String c' r');
                  Ok (from_option JObj JOutside l, rest)
            end
          else if (n =? 34)%N then
            '(b, rest) ← parse_string_body r;
            Ok (from_option JStr JOutside b, rest)
          else parse_literal (String c r)
      end
  end
with parse_elements (fuel : nat) (s : string) {struct fuel}
    : result (list json * string) :=
  match fuel with
  | O => Err OutOfFuel
  | S f =>
      '(v, r) ← parse_value f s;
      match skip_ws r with
      | EmptyString => Err SyntaxError
      | String c r' =>
          if (code c =? 44)%N then
            '(l, rest) ← parse_elements f r'; Ok (v :: l, rest)
          else if (code c =? 93)%N then Ok ([v], r')
          else Err SyntaxError
      end
  end
with parse_members (fuel : nat) (s : string) {struct fuel}
    : result (option (list (string * json)) * string) :=
  match fuel with
  | O => Err OutOfFuel
  | S f =>
      match skip_ws s with
      | EmptyString => Err SyntaxError
      | String q r0 =>
          if (code q =? 34)%N then
            '(k, r1) ← parse_string_body r0;
            match skip_ws r1 with
            | EmptyString => Err SyntaxError
            | String colon r2 =>
                if (code colon =? 58)%N then
                  '(v, r3) ← parse_value f r2;
                  match skip_ws r3 with
                  | EmptyString => Err SyntaxError
                  | String c r4 =>
                      if (code c =? 44)%N then
                        '(l, rest) ← parse_members f r4;
                        Ok (member k v l, rest)
                      else if (code c =? 125)%N
                      then Ok (member k v (Some []), r4)
                      else Err SyntaxError
                  end
                else Err SyntaxError
            end
          else Err SyntaxError
      end
  end.

(** [JSON.parse]: one value, then nothing but white space. *)
Definition parse (s : string) : result json :=
  '(v, rest) ← parse_value (2 * String.length s + 1) s;
  match skip_ws rest with
  | EmptyString => Ok v
  | String _ _ => Err SyntaxError
  end.

End JSON.

(** ** The heap of array objects

    Every JavaScript array is an object with an identity.  The heap is the
    list of all arrays allocated so far; a reference is a position in it. *)

Abbreviation loc := nat.
Abbreviation Heap := (list (list jsval)).

(** A new array object holding the entries [a]. *)
Definition alloc (h : Heap) (a : list jsval) : loc * Heap :=
  (length h, h ++ [a]).

(** The entries of the array at [l]. *)
Definition deref (h : Heap) (l : loc) : list jsval :=
  default [] (h !! l).

(** [a[i] = v] on the entries of an array: inside the array the entry is
    replaced; past its end the array grows, the gap reading [undefined].
    This is what JavaScript does for an array index, that is for [i] below
    [2^32 - 1]; the component passes the index of a level (see
    [ui_event]), and the statements about growth keep to those. *)
Definition array_assign (a : list jsval) (i : nat) (v : jsval) : list jsval :=
  if decide (i < length a)%nat then <[i := v]> a
  else a ++ replicate (i - length a) Undefined ++ [v].

(** [l[i] = v] in place. *)
Definition store (h : Heap) (l : loc) (i : nat) (v : jsval) : Heap :=
  match h !! l with
  | Some a => <[l := array_assign a i v]> h
  | None => h
  end.

(** [value[0]] *)
Definition first (value : list jsval) : jsval :=
  match value with
  | v :: _ => v
  | [] => Undefined
  end.

(** ** localStorage *)

Abbreviation Storage := (gmap string string).

Definition getItem (k : string) (sto : Storage) : option string := sto !! k.
Definition setItem (k v : string) (sto : Storage) : Storage := <[k := v]> sto.
Definition removeItem (k : string) (sto : Storage) : Storage := delete k sto.

Definition needsPyramidValues : string := "needsPyramidValues".
Definition needsPyramidHistory : string := "needsPyramidHistory".
Definition needsPyramidUserName : string := "needsPyramidUserName".

(** [if (saved)] on the result of [getItem]: [null] and the empty string are
    falsy. *)
Definition truthy (o : option string) : bool :=
  match o with
  | Some (String _ _) => true
  | _ => false
  end.

(** ** String.prototype.trim *)

(** White space and line terminators among the code units below 256. *)
Definition is_js_space (c : ascii) : bool :=
  let n := code c in
  (((9 <=? n) && (n <=? 13)) || (n =? 32) || (n =? 160))%N.

Fixpoint trim_start (s : string) : string :=
  match s with
  | EmptyString => ""
  | String c r => if is_js_space c then trim_start r else s
  end.

Fixpoint trim_end (s : string) : string :=
  match s with
  | EmptyString => ""
  | String c r =>
      match trim_end r with
      | EmptyString => if is_js_space c then "" else String c ""
      | String c' r' => String c (String c' r')
      end
  end.

Definition trim (s : string) : string := trim_end (trim_start s).

(** Every character of [s] is white space (in particular, [s] is empty). *)
Fixpoint blank (s : string) : Prop :=
  match s with
  | EmptyString => True
  | String c r => is_js_space c = true /\ blank r
  end.

(** ** The component *)

Definition LEVELS : list string :=
  ["Survival"; "Security"; "Happiness"; "Achievement"; "Experience";
   "Self Actualization"].

Module Snapshot.
Record t : Type := mk {
  date : string;
  values : loc;
  userName : string
}.
End Snapshot.

Record State : Type := mkState {
  levelValues : loc;
  selectedLevel : option nat;
  history : list Snapshot.t;
  showHistory : bool;
  userName : string
}.

(** The page: the arrays allocated so far, the browser's storage, and the
    state of the last render. *)
Record World : Type := mkWorld {
  heap : Heap;
  storage : Storage;
  state : State
}.

(** The rating vector on screen. *)
Definition ratings (w : World) : list jsval :=
  deref (heap w) (levelValues (state w)).

(** The [set...] calls a handler queued; [None] where a setter was not
    called. *)
Record Updates : Type := mkUpdates {
  setLevelValues : option loc;
  setSelectedLevel : option (option nat);
  setHistory : option (list Snapshot.t);
  setShowHistory : option bool;
  setUserName : option string
}.

Definition no_updates : Updates := mkUpdates None None None None None.

Definition apply_updates (u : Updates) (st : State) : State :=
  {| levelValues := default (levelValues st) (setLevelValues u);
     selectedLevel := default (selectedLevel st) (setSelectedLevel u);
     history := default (history st) (setHistory u);
     showHistory := default (showHistory st) (setShowHistory u);
     userName := default (userName st) (setUserName u) |}.

(** *** Serialising the history *)

Definition stringify_key (k : string) : string :=
  JSON.stringify_string k +:+ ":".

Definition stringify_snapshot (h : Heap) (s : Snapshot.t) : string :=
  "{" +:+ stringify_key "date" +:+ JSON.stringify_string (Snapshot.date s)
  +:+ "," +:+ stringify_key "values"
  +:+ JSON.stringify_array (deref h (Snapshot.values s))
  +:+ "," +:+ stringify_key "userName"
  +:+ JSON.stringify_string (Snapshot.userName s) +:+ "}".

Definition stringify_history (h : Heap) (l : list Snapshot.t) : string :=
  "[" +:+ JSON.join_comma (map (stringify_snapshot h) l) +:+ "]".

(** *** Reading parsed JSON at the declared types

    [JSON.parse] returns whatever the text denotes, and the loader installs
    it unchecked; the state is declared [number[]] and [Snapshot[]].  The
    embedding follows the values of these types: arrays of numbers, and
    objects with the three properties in the order [saveSnapshot] writes
    them (the order is kept by [JSON.stringify] when the history is written
    again).  For any other value the state has no term and the result is
    [OutsideModel]: the embedding then says nothing about the page, and the
    statements about what is installed name the stored values they are
    about. *)

Fixpoint as_numbers (l : list JSON.json) : option (list jsval) :=
  match l with
  | [] => Some []
  | JSON.JNum z :: r => (fun a => Num z :: a) <$> as_numbers r
  | _ :: _ => None
  end.

Definition as_number_array (j : JSON.json) : result (list jsval) :=
  match j with
  | JSON.JArr l =>
      match as_numbers l with
      | Some a => Ok a
      | None => Err OutsideModel
      end
  | _ => Err OutsideModel
  end.

Definition as_snapshot (h : Heap) (j : JSON.json)
    : result (Snapshot.t * Heap) :=
  match j with
  | JSON.JObj [(k1, JSON.JStr d); (k2, vs); (k3, JSON.JStr u)] =>
      if (String.eqb k1 "date" && String.eqb k2 "values"
          && String.eqb k3 "userName")%bool
      then
        a ← as_number_array vs;
        let '(l, h') := alloc h a in
        Ok (Snapshot.mk d l u, h')
      else Err OutsideModel
  | _ => Err OutsideModel
  end.

Fixpoint as_snapshots (h : Heap) (l : list JSON.json)
    : result (list Snapshot.t * Heap) :=
  match l with
  | [] => Ok ([], h)
  | j :: r =>
      '(s, h1) ← as_snapshot h j;
      '(ss, h2) ← as_snapshots h1 r;
      Ok (s :: ss, h2)
  end.

Definition as_history (h : Heap) (j : JSON.json)
    : result (list Snapshot.t * Heap) :=
  match j with
  | JSON.JArr l => as_snapshots h l
  | _ => Err OutsideModel
  end.

(** *** The handlers *)

(** [[
  const handleSliderChange = (index, value) => {
    setLevelValues(prev => {
      const newValues = [...prev];
      newValues[index] = value[0];
      return newValues;
    });
  };
]] *)
Definition handleSliderChange (st : State) (h : Heap)
    (index : nat) (value : list jsval) : Heap * Updates :=
  let prev := levelValues st in
  let '(newValues, h1) := alloc h (deref h prev) in
  let h2 := store h1 newValues index (first value) in
  (h2, mkUpdates (Some newValues) None None None None).

(** [[
  const saveSnapshot = () => {
    const newSnapshot = {
      date: new Date().toISOString(),
      values: [...levelValues],
      userName: userName
    };
    const updatedHistory = [...history, newSnapshot];
    setHistory(updatedHistory);
    localStorage.setItem('needsPyramidHistory', JSON.stringify(updatedHistory));
  };
]]
    [now] is the clock reading [new Date().toISOString()]. *)
Definition saveSnapshot (st : State) (h : Heap) (sto : Storage)
    (now : string) : Heap * Storage * Updates :=
  let '(copy, h1) := alloc h (deref h (levelValues st)) in
  let newSnapshot := Snapshot.mk now copy (userName st) in
  let updatedHistory := history st ++ [newSnapshot] in
  (h1,
   setItem needsPyramidHistory (stringify_history h1 updatedHistory) sto,
   mkUpdates None None (Some updatedHistory) None None).

(** [[
  const resetData = () => {
    if (window.confirm('Are you sure ...')) {
      setLevelValues(LEVELS.map(() => 50));
      setHistory([]);
      setUserName('');
      localStorage.removeItem('needsPyramidValues');
      localStorage.removeItem('needsPyramidHistory');
      localStorage.removeItem('needsPyramidUserName');
    }
  };
]]
    [confirmed] is the answer given to [window.confirm]. *)
Definition resetData (h : Heap) (sto : Storage) (confirmed : bool)
    : Heap * Storage * Updates :=
  if confirmed then
    let '(fresh, h1) := alloc h (map (fun _ => Num 50) LEVELS) in
    (h1,
     removeItem needsPyramidUserName
       (removeItem needsPyramidHistory
         (removeItem needsPyramidValues sto)),
     mkUpdates (Some fresh) None (Some []) None (Some ""))
  else (h, sto, no_updates).

(** [disabled={!userName.trim()}] on the Save Snapshot button. *)
Definition save_disabled (st : State) : bool :=
  negb (truthy (Some (trim (userName st)))).

(** *** The effects *)

(** [[
  useEffect(() => {
    localStorage.setItem('needsPyramidValues', JSON.stringify(levelValues));
  }, [levelValues]);
]] *)
Definition persist_levelValues (h : Heap) (st : State) (sto : Storage)
    : Storage :=
  setItem needsPyramidValues
    (JSON.stringify_array (deref h (levelValues st))) sto.

(** [[
  useEffect(() => {
    localStorage.setItem('needsPyramidUserName', userName);
  }, [userName]);
]] *)
Definition persist_userName (st : State) (sto : Storage) : Storage :=
  setItem needsPyramidUserName (userName st) sto.

(** [[
  useEffect(() => {
    const savedLevelValues = localStorage.getItem('needsPyramidValues');
    const savedHistory = localStorage.getItem('needsPyramidHistory');
    const savedUserName = localStorage.getItem('needsPyramidUserName');
    if (savedLevelValues) { setLevelValues(JSON.parse(savedLevelValues)); }
    if (savedHistory) { setHistory(JSON.parse(savedHistory)); }
    if (savedUserName) { setUserName(savedUserName); }
  }, []);
]]
    Each of the three reads is taken on its own. *)
Definition load_levelValues (h : Heap) (sto : Storage)
    : result (option loc * Heap) :=
  let savedLevelValues := getItem needsPyramidValues sto in
  if truthy savedLevelValues then
    j ← JSON.parse (default "" savedLevelValues);
    a ← as_number_array j;
    let '(l, h1) := alloc h a in
    Ok (Some l, h1)
  else Ok (None, h).

Definition load_history (h : Heap) (sto : Storage)
    : result (option (list Snapshot.t) * Heap) :=
  let savedHistory := getItem needsPyramidHistory sto in
  if truthy savedHistory then
    j ← JSON.parse (default "" savedHistory);
    '(l, h1) ← as_history h j;
    Ok (Some l, h1)
  else Ok (None, h).

Definition load_userName (sto : Storage) : option string :=
  let savedUserName := getItem needsPyramidUserName sto in
  if truthy savedUserName then savedUserName else None.

Definition load (h : Heap) (sto : Storage) : result (Heap * Updates) :=
  '(lv, h1) ← load_levelValues h sto;
  '(hist, h2) ← load_history h1 sto;
  Ok (h2, mkUpdates lv None hist None (load_userName sto)).

(** *** Commit

    After the queued updates are applied, React runs the effects whose
    dependency differs from the previous render's: [Object.is] on the array
    reference for [[levelValues]], on the string for [[userName]]. *)
Definition run_effects (prev next : State) (h : Heap) (sto : Storage)
    : Storage :=
  let sto1 :=
    if decide (levelValues next = levelValues prev) then sto
    else persist_levelValues h next sto in
  if decide (userName next = userName prev) then sto1
  else persist_userName next sto1.

Definition commit (prev : State) (h : Heap) (sto : Storage) (u : Updates)
    : World :=
  let next := apply_updates u prev in
  {| heap := h; storage := run_effects prev next h sto; state := next |}.

(** *** Mounting

    The first render uses the [useState] defaults; then all three effects
    run in the order they are declared, the two writers still seeing the
    defaults; then the updates queued by the loader are committed.  An
    exception in the loader ends the component. *)
Definition initial_state (l : loc) : State :=
  {| levelValues := l; selectedLevel := None; history := [];
     showHistory := false; userName := "" |}.

Definition mount (sto : Storage) : result World :=
  let '(l0, h0) := alloc [] (map (fun _ => Num 50) LEVELS) in
  let st0 := initial_state l0 in
  '(h1, u) ← load h0 sto;
  let sto1 := persist_levelValues h1 st0 sto in
  let sto2 := persist_userName st0 sto1 in
  Ok (commit st0 h1 sto2 u).

(** *** Events *)

Inductive Event : Type :=
  | SliderChange (index : nat) (v : Z)   (* a slider of the list *)
  | DialogSliderChange (v : Z)           (* the slider of the detail dialog *)
  | NameInput (text : string)            (* typing in the name field *)
  | ClickSave (now : string)
  | ClickReset (confirmed : bool)
  | ToggleHistory
  | SelectLevel (index : nat)            (* clicking a band of the pyramid *)
  | CloseDialog.

(** What the controls can emit: the sliders are bounded by [0] and
    [max={100}], and there is one slider and one band per level. *)
Definition ui_event (e : Event) : Prop :=
  match e with
  | SliderChange index v => (index < length LEVELS)%nat /\ 0 <= v <= 100
  | DialogSliderChange v => 0 <= v <= 100
  | SelectLevel index => (index < length LEVELS)%nat
  | _ => True
  end.

(** The handler each event reaches.  A click on the Save Snapshot button
    reaches [saveSnapshot] only while the button is enabled, and the slider
    of the dialog exists only while a level is selected. *)
Definition handle (w : World) (e : Event) : Heap * Storage * Updates :=
  let st := state w in
  match e with
  | SliderChange index v =>
      let '(h, u) := handleSliderChange st (heap w) index [Num v] in
      (h, storage w, u)
  | DialogSliderChange v =>
      match selectedLevel st with
      | Some index =>
          let '(h, u) := handleSliderChange st (heap w) index [Num v] in
          (h, storage w, u)
      | None => (heap w, storage w, no_updates)
      end
  | NameInput text =>
      (heap w, storage w, mkUpdates None None None None (Some text))
  | ClickSave now =>
      if save_disabled st then (heap w, storage w, no_updates)
      else saveSnapshot st (heap w) (storage w) now
  | ClickReset confirmed => resetData (heap w) (storage w) confirmed
  | ToggleHistory =>
      (heap w, storage w,
       mkUpdates None None None (Some (negb (showHistory st))) None)
  | SelectLevel index =>
      (heap w, storage w, mkUpdates None (Some (Some index)) None None None)
  | CloseDialog =>
      (heap w, storage w, mkUpdates None (Some None) None None None)
  end.

(** One event, from the handler to the end of the effects it causes. *)
Definition step (w : World) (e : Event) : World :=
  let '(h, sto, u) := handle w e in
  commit (state w) h sto u.

Definition run (w : World) (es : list Event) : World :=
  fold_left step es w.

(** ** Predicates used in the statements *)

Definition rating (v : jsval) : Prop :=
  match v with
  | Num z => 0 <= z <= 100
  | Undefined => False
  end.

Definition rating_vector (a : list jsval) : Prop :=
  length a = 6%nat /\ Forall rating a.

(** The stored rating vector, if there is one and it can be loaded, is a
    rating vector. *)
Definition stored_vector_ok (sto : Storage) : Prop :=
  forall j a,
    truthy (getItem needsPyramidValues sto) = true ->
    JSON.parse (default "" (getItem needsPyramidValues sto)) = Ok j ->
    as_number_array j = Ok a ->
    rating_vector a.

(** Pages reached from the storage [sto0]: the component mounts, the user
    operates the controls, the page is loaded again. *)
Inductive reachable (sto0 : Storage) : World -> Prop :=
  | reach_mount w :
      mount sto0 = Ok w -> reachable sto0 w
  | reach_step w e :
      reachable sto0 w -> ui_event e -> reachable sto0 (step w e)
  | reach_reload w w' :
      reachable sto0 w -> mount (storage w) = Ok w' -> reachable sto0 w'.

(** A page whose current rating array exists in the heap. *)
Definition well_formed (w : World) : Prop :=
  (levelValues (state w) < length (heap w))%nat.

(** What every page reached through the controls satisfies, provided the
    storage it started from did. *)
Definition invariant (w : World) : Prop :=
  rating_vector (ratings w)
  /\ stored_vector_ok (storage w)
  /\ (forall index, selectedLevel (state w) = Some index ->
       (index < length LEVELS)%nat).

(** The page shown on a first visit, when the storage is empty. *)
Definition first_visit : World :=
  {| heap := [map (fun _ => Num 50) LEVELS];
     storage :=
       setItem needsPyramidUserName ""
         (setItem needsPyramidValues "[50,50,50,50,50,50]" ∅);
     state := initial_state 0 |}.

(** [r], the result of parsing a prefix of [s], is a value or a syntax
    error (not a lack of fuel), and what it leaves is shorter than [s]. *)
Definition consumes {A : Type} (r : result (A * string)) (s : string) : Prop :=
  (forall e, r = Err e -> e = SyntaxError)
  /\ forall v rest, r = Ok (v, rest) ->
       (String.length rest < String.length s)%nat.

(** What a snapshot holds: its date, the entries of its [values] array and
    its user name. *)
Definition snapshot_view (h : Heap) (s : Snapshot.t)
    : string * list jsval * string :=
  (Snapshot.date s, deref h (Snapshot.values s), Snapshot.userName s).

(** An array of numbers that [JSON.stringify] writes in plain digits. *)
Definition numeric (a : list jsval) : Prop :=
  exists zs, a = map Num zs /\ Forall JSON.exact zs.

(** The JSON value [JSON.stringify] writes for a snapshot. *)
Definition snapshot_json (h : Heap) (s : Snapshot.t) : JSON.json :=
  JSON.JObj
    [("date", JSON.JStr (Snapshot.date s));
     ("values",
      JSON.JArr
        (map (fun v => match v with
                       | Num z => JSON.JNum z
                       | Undefined => JSON.JNull
                       end)
             (deref h (Snapshot.values s))));
     ("userName", JSON.JStr (Snapshot.userName s))].

(** The arrays of the snapshots of [l] hold numbers only. *)
Definition numeric_history (h : Heap) (l : list Snapshot.t) : Prop :=
  Forall (fun s => numeric (deref h (Snapshot.values s))) l.

(** *** What the storage holds, read without a heap *)

(** The snapshot a JSON value denotes, by content. *)
Definition view_of_json (j : JSON.json)
    : result (string * list jsval * string) :=
  match j with
  | JSON.JObj [(k1, JSON.JStr d); (k2, vs); (k3, JSON.JStr u)] =>
      if (String.eqb k1 "date" && String.eqb k2 "values"
          && String.eqb k3 "userName")%bool
      then a ← as_number_array vs; Ok (d, a, u)
      else Err OutsideModel
  | _ => Err OutsideModel
  end.

Fixpoint views_of_json (l : list JSON.json)
    : result (list (string * list jsval * string)) :=
  match l with
  | [] => Ok []
  | j :: r =>
      v ← view_of_json j;
      vs ← views_of_json r;
      Ok (v :: vs)
  end.

(** The history the storage holds: none when the key is absent or empty. *)
Definition stored_history (sto : Storage)
    : result (list (string * list jsval * string)) :=
  let savedHistory := getItem needsPyramidHistory sto in
  if truthy savedHistory then
    j ← JSON.parse (default "" savedHistory);
    match j with
    | JSON.JArr l => views_of_json l
    | _ => Err OutsideModel
    end
  else Ok [].

(** Every number of a JSON value is within [JSON.max_exact]. *)
Fixpoint exact_json (j : JSON.json) : Prop :=
  match j with
  | JSON.JNum z => JSON.exact z
  | JSON.JArr l =>
      (fix all (l : list JSON.json) : Prop :=
         match l with
         | [] => True
         | x :: r => exact_json x /\ all r
         end) l
  | JSON.JObj l =>
      (fix all (l : list (string * JSON.json)) : Prop :=
         match l with
         | [] => True
         | (_, x) :: r => exact_json x /\ all r
         end) l
  | _ => True
  end.

(** The storage holds the page: the rating vector as written, the
    history snapshot for snapshot, and the user name (an empty name may be
    absent). *)
Definition persisted (w : World) : Prop :=
  well_formed w
  /\ Forall (fun s => (Snapshot.values s < length (heap w))%nat)
       (history (state w))
  /\ numeric (ratings w)
  /\ getItem needsPyramidValues (storage w)
     = Some (JSON.stringify_array (ratings w))
  /\ stored_history (storage w)
     = Ok (map (snapshot_view (heap w)) (history (state w)))
  /\ load_userName (storage w)
     = (if decide (userName (state w) = "") then None
        else Some (userName (state w))).

(** ** The view

    What the render computes from the state: the bands of the pyramid, the
    rows of the history chart and the contents of the detail dialog.  The
    layout arithmetic of [Pyramid] (percentages obtained by floating-point
    division) is left out. *)

Definition COLORS : list string :=
  ["#FF6B6B"; "#FFA06B"; "#FECA57"; "#48DBFB"; "#54A0FF"; "#5F27CD"].

(** The object [DESCRIPTIONS], read by [DESCRIPTIONS[level]]. *)
Definition DESCRIPTIONS : gmap string string :=
  list_to_map
    [("Survival",
      "Basic needs for physical survival and biological functioning.");
     ("Security", "Safety, stability, and freedom from fear.");
     ("Happiness", "Feelings of joy, contentment, and positive emotions.");
     ("Achievement", "Accomplishment of goals and recognition of efforts.");
     ("Experience",
      "Learning, growth, and accumulation of life experiences.");
     ("Self Actualization",
      "Realizing personal potential, self-fulfillment, seeking personal growth and peak experiences.")].

(** [a[i]] read from an array: [undefined] past the end. *)
Definition read (a : list jsval) (i : nat) : jsval :=
  default Undefined (a !! i).

(** [[
  const pyramidData = useMemo(() =>
    LEVELS.map((level, index) => ({
      props: {
        style: { backgroundColor: COLORS[index], border: '1px solid #000',
                 cursor: 'pointer' },
        className: '...',
        onClick: () => setSelectedLevel(index),
      },
      content: level,
      width: levelValues[index],
    })),
    [levelValues]);
]]
    [onClick] is given as the event the click amounts to. *)
Module Band.
Record t : Type := mk {
  backgroundColor : option string;
  border : string;
  cursor : string;
  className : string;
  onClick : Event;
  content : string;
  width : jsval
}.
End Band.

Definition pyramidData (w : World) : list Band.t :=
  imap
    (fun index level =>
       Band.mk (COLORS !! index) "1px solid #000" "pointer"
         "relative flex items-center justify-center transition-all duration-300 ease-in-out"
         (SelectLevel index) level (read (ratings w) index))
    LEVELS.

(** A property of a chart row: text, or an entry of a [values] array. *)
Inductive cell : Type :=
  | CStr (s : string)
  | CVal (v : jsval).

(** [[
  LEVELS.reduce((acc, level, index) => {
    acc[level] = snapshot.values[index];
    return acc;
  }, {})
]] *)
Definition level_cells (h : Heap) (s : Snapshot.t) : gmap string cell :=
  fold_left
    (fun acc '(index, level) =>
       <[level := CVal (read (deref h (Snapshot.values s)) index)]> acc)
    (imap pair LEVELS) ∅.

(** [x || fallback] on a string: the empty string is falsy. *)
Definition or_else (x fallback : string) : string :=
  match x with
  | EmptyString => fallback
  | String _ _ => x
  end.

(** [[
  const chartData = history.map(snapshot => ({
    date: new Date(snapshot.date).toLocaleDateString(),
    userName: snapshot.userName || 'Unknown',
    ...LEVELS.reduce(...)
  }));
]]
    The spread comes last, so its properties win over [date] and
    [userName].  [toLocaleDateString] stands for the locale's rendering of
    a date. *)
Definition chart_row (toLocaleDateString : string -> string) (h : Heap)
    (s : Snapshot.t) : gmap string cell :=
  level_cells h s
  ∪ <["userName" := CStr (or_else (Snapshot.userName s) "Unknown")]>
      (<["date" := CStr (toLocaleDateString (Snapshot.date s))]> ∅).

Definition chartData (toLocaleDateString : string -> string) (w : World)
    : list (gmap string cell) :=
  map (chart_row toLocaleDateString (heap w)) (history (state w)).

(** [History for {userName || 'Unknown User'}] *)
Definition chart_title (w : World) : string :=
  "History for " +:+ or_else (userName (state w)) "Unknown User".

(** [{showHistory && <HistoryChart />}] and the label of the toggle. *)
Definition chart_shown (w : World) : bool := showHistory (state w).

Definition toggle_label (w : World) : string :=
  if showHistory (state w) then "Hide History" else "Show History".

(** The detail dialog: [open={selectedLevel !== null}], and, while a level
    is selected, its title [LEVELS[selectedLevel]], the colour
    [COLORS[selectedLevel]], the text [DESCRIPTIONS[LEVELS[selectedLevel]]]
    and the value [levelValues[selectedLevel]] of its slider. *)
Definition dialog_open (w : World) : bool :=
  match selectedLevel (state w) with
  | Some _ => true
  | None => false
  end.

Definition dialog_title (w : World) : option string :=
  index ← selectedLevel (state w); LEVELS !! index.

Definition dialog_color (w : World) : option string :=
  index ← selectedLevel (state w); COLORS !! index.

Definition dialog_description (w : World) : option string :=
  index ← selectedLevel (state w);
  level ← LEVELS !! index;
  DESCRIPTIONS !! level.

Definition dialog_value (w : World) : option jsval :=
  index ← selectedLevel (state w); Some (read (ratings w) index).

(** The value shown by the slider of the list for level [index]:
    [value={[levelValues[index]]}]. *)
Definition slider_value (w : World) (index : nat) : jsval :=
  read (ratings w) index.

(** * Properties *)

Example ex_stringify :
  JSON.stringify_array [Num 10; Num 0; Undefined; Num (-7); Num 100]
  = "[10,0,null,-7,100]".
Proof. reflexivity. Qed.

Example ex_parse :
  JSON.parse " [10, 0,null , -7,100 ] "
  = Ok (JSON.JArr [JSON.JNum 10; JSON.JNum 0; JSON.JNull; JSON.JNum (-7); JSON.JNum 100]).
Proof. vm_compute. reflexivity. Qed.

#[local] Arguments String.append !_ _ : simpl nomatch.

(** Decide the character tests of the goal from bounds on [code c]. *)
Ltac code_test :=
  repeat match goal with
  | |- context [N.eqb ?a ?b] => destruct (N.eqb_spec a b); [try lia|]
  | |- context [N.leb ?a ?b] => destruct (N.leb_spec a b); [|try lia]
  | |- context [N.ltb ?a ?b] => destruct (N.ltb_spec a b); [try lia|]
  end.

(** ** JSON: numbers and arrays of numbers *)

Section JSONFacts.
Import JSON.

Lemma is_digit_bounds (c : ascii) :
  is_digit c = true <-> (48 <= code c <= 57)%N.
Proof.
  unfold is_digit. rewrite andb_true_iff, !N.leb_le. tauto.
Qed.

Lemma span_digits_uint (d : uint) (rest : string) :
  ends_number rest ->
  span_digits (NilEmpty.string_of_uint d +:+ rest)
  = (NilEmpty.string_of_uint d, rest).
Proof.
  intros Hrest.
  induction d; cbn [NilEmpty.string_of_uint String.append];
    try (cbn [span_digits]; change (is_digit _) with true; cbn iota;
         rewrite IHd; reflexivity).
  destruct rest as [|c r]; [reflexivity|].
  cbn [span_digits]. destruct Hrest as [-> _]. reflexivity.
Qed.

(** The digits of a positive number start with a digit other than 0. *)
Lemma to_uint_head (p : positive) :
  exists c r, NilEmpty.string_of_uint (Pos.to_uint p) = String c r
    /\ (49 <= code c <= 57)%N.
Proof.
  pose proof (DecimalPos.Unsigned.to_of (Pos.to_uint p)) as Hn.
  rewrite DecimalPos.Unsigned.of_to in Hn. cbn [N.to_uint] in Hn.
  pose proof (DecimalPos.Unsigned.to_uint_nonnil p) as Hnil.
  pose proof (DecimalPos.Unsigned.to_uint_nonzero p) as Hz.
  destruct (Pos.to_uint p) as [|d|d|d|d|d|d|d|d|d|d] eqn:E; [done|..];
    cbn [NilEmpty.string_of_uint]; eexists _, _; (split; [reflexivity|]);
    try (vm_compute; split; discriminate).
  exfalso. rewrite unorm_D0 in Hn.
  destruct (uint_eq_dec (nzhead d) Nil) as [En|En].
  - apply unorm_0 in En. rewrite En in Hn. by apply Hz.
  - rewrite (unorm_nzhead d En) in Hn. by apply (nzhead_nonzero d d).
Qed.

Lemma append_nil_r (a : string) : a +:+ "" = a.
Proof. induction a as [|x a IH]; cbn; [done|]. by rewrite IH. Qed.

(** After an integer that is followed by neither a point nor an exponent
    there is no fraction and the exponent is 0. *)
Lemma ends_number_plain (rest : string) :
  ends_number rest ->
  parse_fraction rest = Ok ("", rest) /\ parse_exponent rest = Ok (0, rest).
Proof.
  destruct rest as [|c r]; [done|]. intros [_ Hf]. cbn in Hf.
  apply orb_false_iff in Hf as [Hf H69].
  apply orb_false_iff in Hf as [H46 H101].
  unfold parse_fraction, parse_exponent. by rewrite H46, H101, H69.
Qed.

Lemma scale_plain (z : Z) : 0 <= z <= max_exact -> scale z 0 = Some z.
Proof.
  intros Hz. unfold scale. destruct (Z.eqb_spec z 0) as [->|Hne]; [done|].
  cbn [Z.leb Z.compare]. cbn zeta. rewrite Z.pow_0_r, Z.mul_1_r.
  by destruct (Z.leb_spec z max_exact); [|lia].
Qed.

Lemma parse_digits_pos (neg : bool) (p : positive) (rest : string) :
  Z.pos p <= max_exact -> ends_number rest ->
  parse_digits neg (NilEmpty.string_of_uint (Pos.to_uint p) +:+ rest)
  = Ok (JNum (if neg then Z.neg p else Z.pos p), rest).
Proof.
  intros Hp Hrest. unfold parse_digits. rewrite span_digits_uint by done.
  destruct (ends_number_plain rest Hrest) as [Hfrac Hexp].
  destruct (to_uint_head p) as (c & r & E & Hc).
  rewrite E.
  replace (code c =? 48)%N with false by (symmetry; apply N.eqb_neq; lia).
  cbn [andb]. rewrite Hfrac. cbn [mbind result_bind]. rewrite Hexp.
  cbn [mbind result_bind String.length]. rewrite append_nil_r, <- E.
  unfold digits_value. rewrite NilEmpty.usu.
  unfold Z.of_uint. rewrite DecimalPos.Unsigned.of_to. cbn [Z.of_N].
  rewrite scale_plain by lia. by destruct neg.
Qed.

Lemma stringify_number_head (z : Z) :
  exists c r, stringify_number z = String c r
    /\ (code c = 45%N \/ (48 <= code c <= 57)%N).
Proof.
  unfold stringify_number.
  destruct z as [|p|p]; cbn [Z.to_int NilEmpty.string_of_int].
  - eexists _, _. split; [reflexivity|]. right. by vm_compute.
  - destruct (to_uint_head p) as (c & r & -> & Hd). eexists _, _.
    split; [done|]. lia.
  - eexists _, _. split; [reflexivity|]. by left.
Qed.

Lemma parse_number_stringify (z : Z) (rest : string) :
  exact z -> ends_number rest ->
  parse_number (stringify_number z +:+ rest) = Ok (JNum z, rest).
Proof.
  intros Hz Hrest. unfold stringify_number, exact in *.
  destruct z as [|p|p]; cbn [Z.to_int NilEmpty.string_of_int].
  - change (NilEmpty.string_of_uint zero) with "0".
    cbn [String.append parse_number]. change (code "0" =? 45)%N with false.
    cbn iota. unfold parse_digits.
    pose proof (span_digits_uint (D0 Nil) rest Hrest) as Hs.
    cbn [NilEmpty.string_of_uint String.append] in Hs. rewrite Hs.
    destruct (ends_number_plain rest Hrest) as [-> Hexp].
    cbn [andb negb String.eqb mbind result_bind]. rewrite Hexp.
    reflexivity.
  - destruct (to_uint_head p) as (c & r & E & Hc).
    rewrite E. cbn [String.append parse_number].
    replace (code c =? 45)%N with false by (symmetry; apply N.eqb_neq; lia).
    change (String c (r +:+ rest)) with (String c r +:+ rest).
    rewrite <- E. apply parse_digits_pos; [lia|done].
  - cbn [String.append parse_number]. change (code "-" =? 45)%N with true.
    cbn iota. apply (parse_digits_pos true); [lia|done].
Qed.

Lemma parse_value_number (f : nat) (z : Z) (rest : string) :
  exact z -> ends_number rest ->
  parse_value (S f) (stringify_number z +:+ rest) = Ok (JNum z, rest).
Proof.
  intros Hz Hrest.
  pose proof (parse_number_stringify z rest Hz Hrest) as Hnum.
  destruct (stringify_number_head z) as (c & r & E & Hc).
  rewrite E in *. cbn [String.append] in *. cbn [parse_value skip_ws].
  unfold is_ws. cbn zeta.
  replace (((code c =? 32)%N || (code c =? 9)%N || (code c =? 10)%N || (code c =? 13)%N)%bool)
    with false by (code_test; done).
  cbn iota zeta.
  replace (code c =? 91)%N with false by (code_test; done).
  replace (code c =? 123)%N with false by (code_test; done).
  replace (code c =? 34)%N with false by (code_test; done).
  cbn iota. unfold parse_literal. cbn [strip_prefix].
  change (code "t") with 116%N. change (code "f") with 102%N. change (code "n") with 110%N.
  replace (116 =? code c)%N with false by (code_test; done).
  replace (102 =? code c)%N with false by (code_test; done).
  replace (110 =? code c)%N with false by (code_test; done).
  done.
Qed.

Lemma ends_number_comma (c : ascii) (r : string) :
  code c = 44%N \/ code c = 93%N -> ends_number (String c r).
Proof.
  intros Hc. cbn. rewrite <- not_true_iff_false, is_digit_bounds.
  split; [lia|]. code_test; done.
Qed.

Lemma join_comma_cons (x y : string) (l : list string) :
  join_comma (x :: y :: l) = x +:+ String "," (join_comma (y :: l)).
Proof. reflexivity. Qed.

Lemma append_assoc (a b c : string) : (a +:+ b) +:+ c = a +:+ (b +:+ c).
Proof. induction a as [|x a IH]; cbn; [done|]. by rewrite IH. Qed.

Lemma parse_elements_S (f : nat) (s : string) :
  parse_elements (S f) s =
  '(v, r) ← parse_value f s;
  match skip_ws r with
  | "" => Err SyntaxError
  | String c r' =>
      if (code c =? 44)%N then
        '(l, rest) ← parse_elements f r'; Ok (v :: l, rest)
      else if (code c =? 93)%N then Ok ([v], r')
      else Err SyntaxError
  end.
Proof. reflexivity. Qed.

Lemma parse_elements_numbers (zs : list Z) (f : nat) (rest : string) :
  zs <> [] -> (length zs < f)%nat -> Forall exact zs ->
  parse_elements f
    (join_comma (map stringify_entry (map Num zs)) +:+ String "]" rest)
  = Ok (map JNum zs, rest).
Proof.
  revert f. induction zs as [|z zs IH]; intros f Hne Hf Hall; [done|].
  inversion Hall as [|? ? Hz Hall']; subst.
  destruct f as [|[|f]]; [cbn in Hf; lia..|].
  destruct zs as [|z' zs].
  - cbn [map join_comma stringify_entry]. rewrite parse_elements_S.
    rewrite parse_value_number; [|done|by apply ends_number_comma; right].
    reflexivity.
  - cbn [map stringify_entry] in *. rewrite join_comma_cons, append_assoc.
    rewrite parse_elements_S. cbn [String.append].
    rewrite parse_value_number; [|done|by apply ends_number_comma; left].
    cbn [mbind result_bind skip_ws]. change (is_ws ",") with false.
    change (code "," =? 44)%N with true. cbn iota.
    rewrite IH; [done|done|cbn in *; lia|done].
Qed.

Lemma as_numbers_map (zs : list Z) : as_numbers (map JNum zs) = Some (map Num zs).
Proof. induction zs as [|z zs IH]; cbn; [done|]. by rewrite IH. Qed.

Lemma length_append (a b : string) :
  String.length (a +:+ b) = (String.length a + String.length b)%nat.
Proof. induction a as [|x a IH]; cbn; [done|]. by rewrite IH. Qed.

Lemma length_join_comma (l : list string) :
  (length l <= S (String.length (join_comma l)))%nat.
Proof.
  induction l as [|x [|y l] IH]; [cbn; lia..|].
  rewrite join_comma_cons, length_append. cbn [String.length length] in *. lia.
Qed.

(** [JSON.parse] reads back the array of numbers that [JSON.stringify]
    wrote. *)
Lemma parse_stringify_array (zs : list Z) :
  Forall exact zs ->
  parse (stringify_array (map Num zs)) = Ok (JArr (map JNum zs)).
Proof.
  intros Hall. unfold parse, stringify_array.
  set (body := join_comma (map stringify_entry (map Num zs))).
  assert (Hlen : (length zs <= S (String.length body))%nat).
  { unfold body. etrans; [|apply length_join_comma]. by rewrite !length_map. }
  cbn [String.append String.length]. rewrite length_append.
  cbn [String.length]. 
  replace (2 * S (String.length body + 1) + 1)%nat
    with (S (S (2 * String.length body + 3)))%nat by lia.
  cbn [parse_value skip_ws]. change (is_ws "[") with false.
  change (code "[" =? 91)%N with true. cbn iota.
  destruct zs as [|z zs].
  - reflexivity.
  - inversion Hall as [|? ? Hz Hall']; subst.
    assert (Hws : skip_ws (body +:+ "]") = body +:+ "]" /\
      exists c r, body +:+ "]" = String c r /\ (code c =? 93)%N = false).
    { unfold body. cbn [map stringify_entry].
      destruct (stringify_number_head z) as (c & r & E & Hc).
      destruct zs as [|z' zs].
      - cbn [map join_comma]. rewrite E. cbn [String.append skip_ws].
        unfold is_ws. cbn zeta. split; [code_test; done|].
        eexists _, _. split; [done|]. code_test; done.
      - cbn [map stringify_entry]. rewrite join_comma_cons, E.
        cbn [String.append skip_ws]. unfold is_ws. cbn zeta.
        split; [code_test; done|].
        eexists _, _. split; [done|]. code_test; done. }
    destruct Hws as (-> & c & r & E & Hc).
    rewrite E, Hc, <- E.
    change (body +:+ "]") with (body +:+ String "]" "").
    subst body. rewrite parse_elements_numbers; [done|done| |done].
    cbn [length] in *. lia.
Qed.
End JSONFacts.

(** ** The heap *)

Section HeapFacts.
Implicit Types (h : Heap) (a : list jsval) (l : loc) (v : jsval).

Lemma deref_snoc h a : deref (h ++ [a]) (length h) = a.
Proof. unfold deref. by rewrite list_lookup_middle. Qed.

Lemma store_fresh h a i v :
  store (h ++ [a]) (length h) i v = h ++ [array_assign a i v].
Proof.
  unfold store. rewrite list_lookup_middle by done.
  replace (length h) with (length h + 0)%nat at 1 by lia.
  by rewrite insert_app_r.
Qed.

Lemma array_assign_lookup a i v : array_assign a i v !! i = Some v.
Proof.
  unfold array_assign. case_decide as Hi.
  - by apply list_lookup_insert_eq.
  - rewrite lookup_app_r by lia. rewrite lookup_app_r; rewrite length_replicate; [|lia].
    by replace (i - length a - (i - length a))%nat with 0%nat by lia.
Qed.

Lemma array_assign_lookup_ne a i j v :
  (i < length a)%nat -> j <> i -> array_assign a i v !! j = a !! j.
Proof.
  intros Hi Hj. unfold array_assign. rewrite decide_True by done.
  by apply list_lookup_insert_ne.
Qed.

Lemma array_assign_length a i v :
  (i < length a)%nat -> length (array_assign a i v) = length a.
Proof.
  intros Hi. unfold array_assign. rewrite decide_True by done.
  apply length_insert.
Qed.

Lemma handleSliderChange_eq st h i value :
  handleSliderChange st h i value
  = (h ++ [array_assign (deref h (levelValues st)) i (first value)],
     mkUpdates (Some (length h)) None None None None).
Proof. unfold handleSliderChange. cbn. by rewrite store_fresh. Qed.

End HeapFacts.

(** ** Steps *)

#[local] Arguments handleSliderChange : simpl never.

Lemma commit_no_updates (w : World) :
  commit (state w) (heap w) (storage w) no_updates = w.
Proof.
  destruct w as [h sto [lv sel hist sh un]]. unfold commit, run_effects. cbn.
  by rewrite !decide_True.
Qed.

Lemma ratings_slider (w : World) (i : nat) (v : Z) :
  ratings (step w (SliderChange i v)) = array_assign (ratings w) i (Num v).
Proof.
  unfold step, handle. rewrite handleSliderChange_eq. cbn.
  unfold ratings. cbn. by rewrite deref_snoc.
Qed.

(** The arrays of the heap are never written after they are built: a step
    only adds arrays. *)
Lemma step_heap (w : World) (e : Event) :
  exists new, heap (step w e) = heap w ++ new.
Proof.
  unfold step, handle.
  destruct e as [i v|v|t|now|[]| |i|]; cbn;
    try rewrite handleSliderChange_eq; cbn;
    try (by eexists);
    try (by exists []; rewrite app_nil_r).
  - destruct (selectedLevel (state w)); [rewrite handleSliderChange_eq|]; cbn;
      [by eexists|by exists []; rewrite app_nil_r].
  - destruct (save_disabled (state w)); cbn;
      [by exists []; rewrite app_nil_r|by eexists].
Qed.

Lemma step_lookup (w : World) (e : Event) (l : loc) (a : list jsval) :
  heap w !! l = Some a -> heap (step w e) !! l = Some a.
Proof.
  intros H. destruct (step_heap w e) as [new ->]. by apply lookup_app_l_Some.
Qed.

Lemma run_lookup (es : list Event) (w : World) (l : loc) (a : list jsval) :
  heap w !! l = Some a -> heap (run w es) !! l = Some a.
Proof.
  revert w. induction es as [|e es IH]; intros w H; [done|].
  cbn. apply IH. by apply step_lookup.
Qed.

(** C1.  For an index [i] in [0,5] and a value [v] in [0,100], moving
    slider [i] to [v] on a rating vector of six entries gives a vector that
    reads [v] at position [i], reads as before everywhere else, and still
    has six entries. *)
Theorem setRating_replaces_one_entry (w : World) (i : nat) (v : Z) :
  length (ratings w) = 6%nat -> (i <= 5)%nat -> 0 <= v <= 100 ->
  let w' := step w (SliderChange i v) in
  ratings w' !! i = Some (Num v)
  /\ (forall j, j <> i -> ratings w' !! j = ratings w !! j)
  /\ length (ratings w') = 6%nat.
Proof.
  intros Hlen Hi Hv w'. subst w'. rewrite ratings_slider.
  split; [apply array_assign_lookup|].
  split; [intros j Hj; apply array_assign_lookup_ne; [lia|done]|].
  rewrite array_assign_length; [done|lia].
Qed.

Lemma setRating_replaces_one_entry_witness :
  length (ratings first_visit) = 6%nat /\ (2 <= 5)%nat /\ 0 <= 30 <= 100
  /\ ratings (step first_visit (SliderChange 2 30)) !! 2%nat = Some (Num 30).
Proof.
  assert (H1 : length (ratings first_visit) = 6%nat) by reflexivity.
  assert (H2 : (2 <= 5)%nat) by lia.
  assert (H3 : 0 <= 30 <= 100) by lia.
  split; [exact H1|]. split; [exact H2|]. split; [exact H3|].
  exact (proj1 (setRating_replaces_one_entry first_visit 2 30 H1 H2 H3)).
Defined.

(** ** trim *)

Lemma trim_end_blank (s : string) : trim_end s = "" <-> blank s.
Proof.
  induction s as [|c r IH]; cbn; [done|].
  destruct (trim_end r) eqn:E.
  - destruct (is_js_space c); [tauto|]. split; [done|]. by intros [? _].
  - split; [done|]. intros [_ Hr]. apply IH in Hr. done.
Qed.

Lemma trim_blank (s : string) : trim s = "" <-> blank s.
Proof.
  unfold trim. induction s as [|c r IH]; cbn [trim_start blank]; [done|].
  destruct (is_js_space c) eqn:Ec.
  - rewrite IH. tauto.
  - rewrite trim_end_blank. cbn [blank]. rewrite Ec. tauto.
Qed.

Lemma save_disabled_blank (st : State) :
  save_disabled st = true <-> blank (userName st).
Proof.
  unfold save_disabled. rewrite <- trim_blank. cbn.
  destruct (trim (userName st)); cbn; split; done.
Qed.

(** C3.  When the user name is empty or all white space the Save Snapshot
    button is disabled and a click on it changes nothing: the history keeps
    its length, the stored history is the same, and indeed the whole page
    is. *)
Theorem save_blank_name_noop (w : World) (now : string) :
  blank (userName (state w)) ->
  let w' := step w (ClickSave now) in
  length (history (state w')) = length (history (state w))
  /\ getItem needsPyramidHistory (storage w')
     = getItem needsPyramidHistory (storage w)
  /\ w' = w.
Proof.
  intros Hb w'. assert (w' = w) as ->; [|done].
  subst w'. unfold step, handle.
  apply save_disabled_blank in Hb. rewrite Hb. apply commit_no_updates.
Qed.

Lemma save_blank_name_noop_witness :
  let w := step first_visit (NameInput "  ") in
  blank (userName (state w))
  /\ step w (ClickSave "2024-05-01T10:00:00.000Z") = w.
Proof.
  intros w.
  assert (H : blank (userName (state w))) by (cbn; repeat split).
  split; [exact H|].
  exact (proj2 (proj2 (save_blank_name_noop w "2024-05-01T10:00:00.000Z" H))).
Defined.

(** C6.  Answering no to the confirmation of a reset leaves the whole page
    as it was: rating vector, history, user name and the three stored
    values. *)
Theorem reset_declined_noop (w : World) :
  step w (ClickReset false) = w.
Proof. unfold step, handle, resetData. apply commit_no_updates. Qed.

(** C9.  Every event either leaves the history as it is, or appends one
    snapshot after the existing ones, or empties it; and no event changes
    the contents of an array that exists, in particular of the [values] of a
    snapshot. *)
Theorem history_append_or_clear (w : World) (e : Event) :
  let w' := step w e in
  (history (state w') = history (state w)
   \/ (exists snap, history (state w') = history (state w) ++ [snap])
   \/ history (state w') = [])
  /\ (forall l a, heap w !! l = Some a -> heap w' !! l = Some a).
Proof.
  intros w'. split; [|intros l a; apply step_lookup].
  subst w'. unfold step, handle.
  destruct e as [i v|v|t|now|[]| |i|]; cbn;
    try rewrite handleSliderChange_eq; cbn; auto.
  - destruct (selectedLevel (state w)); [rewrite handleSliderChange_eq|];
      cbn; auto.
  - destruct (save_disabled (state w)); cbn; eauto.
Qed.

(** C2.  With a user name that is not blank, saving appends exactly one
    snapshot; its [values] is a newly allocated array holding the entries of
    the current rating vector, its [userName] is the current user name, and
    whatever events follow (slider moves among them) that array keeps these
    entries. *)
Theorem saveSnapshot_appends_copy (w : World) (now : string) :
  ~ blank (userName (state w)) ->
  let w' := step w (ClickSave now) in
  exists snap,
    history (state w') = history (state w) ++ [snap]
    /\ deref (heap w') (Snapshot.values snap) = ratings w
    /\ heap w !! Snapshot.values snap = None
    /\ Snapshot.userName snap = userName (state w)
    /\ forall es, deref (heap (run w' es)) (Snapshot.values snap) = ratings w.
Proof.
  intros Hb w'. subst w'. unfold step, handle.
  rewrite <- save_disabled_blank in Hb.
  destruct (save_disabled (state w)); [done|]. cbn.
  eexists. split; [reflexivity|]. cbn.
  assert (Hnew : (heap w ++ [ratings w]) !! length (heap w) = Some (ratings w))
    by (by rewrite list_lookup_middle).
  repeat split.
  - apply deref_snoc.
  - by apply lookup_ge_None_2.
  - intros es. unfold deref at 1. erewrite run_lookup; [done|]. exact Hnew.
Qed.

Lemma saveSnapshot_appends_copy_witness :
  let w := step first_visit (NameInput "Alice") in
  ~ blank (userName (state w))
  /\ exists snap,
       history (state (step w (ClickSave "2024-05-01T10:00:00.000Z")))
       = history (state w) ++ [snap]
       /\ Snapshot.userName snap = "Alice".
Proof.
  intros w.
  assert (H : ~ blank (userName (state w))).
  { cbn. intros [Hc _]. vm_compute in Hc. discriminate. }
  split; [exact H|].
  destruct (saveSnapshot_appends_copy w "2024-05-01T10:00:00.000Z" H)
    as (snap & Hh & _ & _ & Hn & _).
  exists snap. split; [exact Hh|exact Hn].
Defined.

(** ** Mounting *)

Lemma as_snapshot_heap (h h' : Heap) (j : JSON.json) (s : Snapshot.t) :
  as_snapshot h j = Ok (s, h') -> exists new, h' = h ++ new.
Proof.
  unfold as_snapshot. intros H.
  repeat (case_match; try discriminate).
  destruct (as_number_array _) as [a|]; cbn in H; [|discriminate].
  injection H as _ <-. by eexists.
Qed.

Lemma as_snapshots_heap (l : list JSON.json) (h h' : Heap)
    (ss : list Snapshot.t) :
  as_snapshots h l = Ok (ss, h') -> exists new, h' = h ++ new.
Proof.
  revert h ss. induction l as [|j l IH]; intros h ss H; cbn in H.
  - injection H as _ <-. exists []. by rewrite app_nil_r.
  - destruct (as_snapshot h j) as [[s h1]|] eqn:E1; cbn in H; [|discriminate].
    destruct (as_snapshots h1 l) as [[ss' h2]|] eqn:E2; cbn in H; [|discriminate].
    injection H as _ <-.
    apply as_snapshot_heap in E1 as [n1 ->]. apply IH in E2 as [n2 ->].
    exists (n1 ++ n2). by rewrite app_assoc.
Qed.

Lemma load_history_cases (h h' : Heap) (sto : Storage)
    (hist : option (list Snapshot.t)) :
  load_history h sto = Ok (hist, h') ->
  (exists new, h' = h ++ new)
  /\ (truthy (getItem needsPyramidHistory sto) = false -> hist = None).
Proof.
  unfold load_history. destruct (truthy _).
  - intros H. split; [|done].
    destruct (JSON.parse _) as [j|]; cbn in H; [|discriminate].
    destruct (as_history h j) as [[l h1]|] eqn:E; cbn in H; [|discriminate].
    injection H as _ <-. destruct j; try discriminate.
    by apply as_snapshots_heap in E.
  - intros [= <- <-]. split; [|done]. exists []. by rewrite app_nil_r.
Qed.

Lemma load_levelValues_cases (h h' : Heap) (sto : Storage) (lv : option loc) :
  load_levelValues h sto = Ok (lv, h') ->
  (truthy (getItem needsPyramidValues sto) = false /\ lv = None /\ h' = h)
  \/ (exists j a,
        truthy (getItem needsPyramidValues sto) = true
        /\ JSON.parse (default "" (getItem needsPyramidValues sto)) = Ok j
        /\ as_number_array j = Ok a
        /\ lv = Some (length h) /\ h' = h ++ [a]).
Proof.
  unfold load_levelValues. destruct (truthy _).
  - intros H. right.
    destruct (JSON.parse _) as [j|]; cbn in H; [|discriminate].
    destruct (as_number_array j) as [a|] eqn:E; cbn in H; [|discriminate].
    injection H as <- <-. by exists j, a.
  - intros [= <- <-]. by left.
Qed.

Lemma truthy_absent (o : option string) : o = None -> truthy o = false.
Proof. by intros ->. Qed.


(** What a successful mount consists of. *)
Lemma mount_Ok (sto : Storage) (w : World) :
  mount sto = Ok w ->
  let h0 := [map (fun _ => Num 50) LEVELS] in
  let st0 := initial_state 0%nat in
  exists lv hist h1 h2,
    load_levelValues h0 sto = Ok (lv, h1)
    /\ load_history h1 sto = Ok (hist, h2)
    /\ w = commit st0 h2
             (persist_userName st0 (persist_levelValues h2 st0 sto))
             (mkUpdates lv None hist None (load_userName sto)).
Proof.
  unfold mount, load. cbn [alloc length app].
  destruct (load_levelValues _ sto) as [[lv h1]|] eqn:E1;
    cbn [mbind result_bind]; [|discriminate].
  destruct (load_history h1 sto) as [[hist h2]|] eqn:E2;
    cbn [mbind result_bind]; [|discriminate].
  intros [= <-]. by exists lv, hist, h1, h2.
Qed.

(** The rating vector after a mount: the stored one if there is one, else
    the defaults. *)
Lemma mount_ratings (sto : Storage) (w : World) :
  mount sto = Ok w ->
  (truthy (getItem needsPyramidValues sto) = false
   /\ ratings w = map (fun _ => Num 50) LEVELS)
  \/ (exists j,
        truthy (getItem needsPyramidValues sto) = true
        /\ JSON.parse (default "" (getItem needsPyramidValues sto)) = Ok j
        /\ as_number_array j = Ok (ratings w)).
Proof.
  intros H. apply mount_Ok in H as (lv & hist & h1 & h2 & Hlv & Hh & ->).
  apply load_history_cases in Hh as [[new ->] _].
  apply load_levelValues_cases in Hlv
    as [(Ht & -> & ->)|(j & a & Ht & Hp & Ha & -> & ->)].
  - left. split; [done|]. reflexivity.
  - right. exists j. split; [done|]. split; [done|]. rewrite Ha. reflexivity.
Qed.

Lemma load_userName_absent (sto : Storage) :
  getItem needsPyramidUserName sto = None -> load_userName sto = None.
Proof. unfold load_userName. by intros ->. Qed.

Lemma load_levelValues_absent (h : Heap) (sto : Storage) :
  getItem needsPyramidValues sto = None ->
  load_levelValues h sto = Ok (None, h).
Proof. unfold load_levelValues. by intros ->. Qed.

Lemma load_history_absent (h : Heap) (sto : Storage) :
  getItem needsPyramidHistory sto = None ->
  load_history h sto = Ok (None, h).
Proof. unfold load_history. by intros ->. Qed.

Lemma mount_nothing_stored (sto : Storage) :
  getItem needsPyramidValues sto = None ->
  getItem needsPyramidHistory sto = None ->
  exists w, mount sto = Ok w.
Proof.
  intros Hv Hh. unfold mount, load. cbn [alloc].
  rewrite load_levelValues_absent by done. cbn [mbind result_bind].
  rewrite load_history_absent by done. cbn [mbind result_bind]. by eexists.
Qed.

(** ** Storage *)

Lemma getItem_setItem (k k' v : string) (sto : Storage) :
  getItem k (setItem k' v sto) = if decide (k' = k) then Some v else getItem k sto.
Proof. unfold getItem, setItem. apply lookup_insert. Qed.

Lemma getItem_removeItem (k k' : string) (sto : Storage) :
  getItem k (removeItem k' sto) = if decide (k' = k) then None else getItem k sto.
Proof. unfold getItem, removeItem. apply lookup_delete. Qed.

Lemma run_effects_values (prev next : State) (h : Heap) (sto : Storage) :
  getItem needsPyramidValues (run_effects prev next h sto)
  = if decide (levelValues next = levelValues prev)
    then getItem needsPyramidValues sto
    else Some (JSON.stringify_array (deref h (levelValues next))).
Proof.
  unfold run_effects, persist_userName, persist_levelValues.
  repeat case_decide; rewrite ?getItem_setItem; repeat case_decide; done.
Qed.

Lemma run_effects_userName (prev next : State) (h : Heap) (sto : Storage) :
  getItem needsPyramidUserName (run_effects prev next h sto)
  = if decide (userName next = userName prev)
    then getItem needsPyramidUserName sto
    else Some (userName next).
Proof.
  unfold run_effects, persist_userName, persist_levelValues.
  repeat case_decide; rewrite ?getItem_setItem; repeat case_decide; done.
Qed.

Lemma run_effects_history (prev next : State) (h : Heap) (sto : Storage) :
  getItem needsPyramidHistory (run_effects prev next h sto)
  = getItem needsPyramidHistory sto.
Proof.
  unfold run_effects, persist_userName, persist_levelValues.
  repeat case_decide; rewrite ?getItem_setItem; repeat case_decide; done.
Qed.

(** The storage after a mount. *)
Lemma mount_storage (sto : Storage) (w : World) :
  mount sto = Ok w ->
  getItem needsPyramidValues (storage w)
    = Some (JSON.stringify_array (ratings w))
  /\ getItem needsPyramidUserName (storage w) = Some (userName (state w)).
Proof.
  intros H. apply mount_Ok in H as (lv & hist & h1 & h2 & Hlv & Hh & ->).
  unfold commit, ratings. cbn [storage state heap].
  rewrite run_effects_values, run_effects_userName.
  unfold persist_userName, persist_levelValues.
  rewrite !getItem_setItem. cbn [apply_updates levelValues userName initial_state].
  split.
  - case_decide as E; [|done]. rewrite decide_False by done.
    rewrite decide_True by done. by rewrite E.
  - case_decide as E; [|done]. rewrite decide_True by done. by rewrite E.
Qed.

(** ** Reset *)

(** C5.  What a confirmed reset leaves behind: the rating vector is six
    times 50, the history and the user name are empty and the history key
    is gone; but the effect on [[levelValues]] has written the rating
    vector key again, and the effect on [[userName]] has written the
    user name key again unless the name was empty already. *)
Theorem reset_confirmed_result (w : World) :
  well_formed w ->
  let w' := step w (ClickReset true) in
  ratings w' = [Num 50; Num 50; Num 50; Num 50; Num 50; Num 50]
  /\ history (state w') = []
  /\ userName (state w') = ""
  /\ getItem needsPyramidHistory (storage w') = None
  /\ getItem needsPyramidValues (storage w') = Some "[50,50,50,50,50,50]"
  /\ getItem needsPyramidUserName (storage w')
     = (if decide (userName (state w) = "") then None else Some "").
Proof.
  intros Hwf w'. subst w'. unfold well_formed in Hwf.
  unfold step, handle, resetData, commit, ratings.
  cbn [alloc storage state heap apply_updates default levelValues history
       userName setLevelValues setHistory setUserName].
  rewrite deref_snoc, run_effects_history, run_effects_values,
    run_effects_userName, !getItem_removeItem.
  cbn [apply_updates default id levelValues userName setLevelValues
       setUserName].
  rewrite deref_snoc.
  repeat split.
  - rewrite decide_False by lia. reflexivity.
  - destruct (decide (userName (state w) = "")) as [E|E].
    + rewrite decide_True by done. by rewrite decide_True.
    + by rewrite decide_False.
Qed.

Lemma reset_confirmed_result_witness :
  let w := step first_visit (NameInput "Alice") in
  well_formed w
  /\ getItem needsPyramidValues (storage (step w (ClickReset true)))
     = Some "[50,50,50,50,50,50]".
Proof.
  intros w.
  assert (H : well_formed w) by (unfold well_formed; cbn; lia).
  split; [exact H|].
  exact (proj1 (proj2 (proj2 (proj2 (proj2 (reset_confirmed_result w H)))))).
Defined.

(** ** The round trip of a rating vector *)

Lemma rating_numeric (a : list jsval) : Forall rating a -> numeric a.
Proof.
  induction 1 as [|v a Hv _ (zs & -> & Hzs)]; [by exists []|].
  destruct v as [z|]; [|done]. exists (z :: zs). split; [done|].
  constructor; [|done]. unfold JSON.exact, JSON.max_exact. cbn in Hv. lia.
Qed.

Lemma stringify_nonempty (a : list jsval) :
  truthy (Some (JSON.stringify_array a)) = true.
Proof. reflexivity. Qed.

Lemma load_levelValues_written (a : list jsval) (h : Heap) (sto : Storage) :
  numeric a ->
  getItem needsPyramidValues sto = Some (JSON.stringify_array a) ->
  load_levelValues h sto = Ok (Some (length h), h ++ [a]).
Proof.
  intros (zs & -> & Hzs) Hsto. unfold load_levelValues. rewrite Hsto.
  rewrite stringify_nonempty. cbn [from_option id].
  rewrite parse_stringify_array by done. cbn [mbind result_bind as_number_array].
  by rewrite as_numbers_map.
Qed.

(** C4.  A rating vector of six integers in [0,100] written by the
    persisting effect is read back entry for entry by the loader, and is
    the rating vector of the page mounted from that storage. *)
Theorem rating_vector_round_trip (a : list jsval) (h : Heap) (st : State)
    (sto : Storage) :
  rating_vector a ->
  deref h (levelValues st) = a ->
  let sto' := persist_levelValues h st sto in
  (forall h', load_levelValues h' sto' = Ok (Some (length h'), h' ++ [a]))
  /\ (forall w', mount sto' = Ok w' -> ratings w' = a).
Proof.
  intros [_ Ha] Hd sto'.
  assert (Hsto : getItem needsPyramidValues sto' = Some (JSON.stringify_array a)).
  { subst sto'. unfold persist_levelValues. rewrite getItem_setItem, Hd.
    by rewrite decide_True. }
  apply rating_numeric in Ha.
  split; [intros h'; by apply load_levelValues_written|].
  intros w' Hm. apply mount_Ok in Hm as (lv & hist & h1 & h2 & Hlv & Hh & ->).
  rewrite (load_levelValues_written a _ _ Ha Hsto) in Hlv.
  injection Hlv as <- <-.
  apply load_history_cases in Hh as [[new ->] _].
  reflexivity.
Qed.

Lemma rating_vector_round_trip_witness :
  let a := [Num 10; Num 20; Num 30; Num 40; Num 50; Num 60] in
  rating_vector a
  /\ deref [a] (levelValues (initial_state 0)) = a
  /\ load_levelValues []
       (persist_levelValues [a] (initial_state 0) ∅) = Ok (Some 0%nat, [a]).
Proof.
  intros a.
  assert (H1 : rating_vector a).
  { split; [reflexivity|]. repeat constructor; cbn; lia. }
  assert (H2 : deref [a] (levelValues (initial_state 0)) = a) by reflexivity.
  split; [exact H1|]. split; [exact H2|].
  exact (proj1 (rating_vector_round_trip a [a] (initial_state 0) ∅ H1 H2) []).
Defined.

(** ** The invariant *)

Lemma default_ratings_vector :
  rating_vector (map (fun _ => Num 50) LEVELS).
Proof.
  split; [reflexivity|]. cbn. repeat constructor; cbn; lia.
Qed.

Lemma stored_vector_ok_ext (sto sto' : Storage) :
  getItem needsPyramidValues sto' = getItem needsPyramidValues sto ->
  stored_vector_ok sto -> stored_vector_ok sto'.
Proof. unfold stored_vector_ok. intros ->. done. Qed.

Lemma stored_vector_ok_absent (sto : Storage) :
  getItem needsPyramidValues sto = None -> stored_vector_ok sto.
Proof. unfold stored_vector_ok. intros -> j a Ht. done. Qed.

Lemma stored_vector_ok_written (sto : Storage) (a : list jsval) :
  rating_vector a ->
  getItem needsPyramidValues sto = Some (JSON.stringify_array a) ->
  stored_vector_ok sto.
Proof.
  intros Ha Hsto j b _ Hp Hb.
  pose proof (load_levelValues_written a [] sto
                (rating_numeric a (proj2 Ha)) Hsto) as Hl.
  unfold load_levelValues in Hl. rewrite Hsto in Hl.
  rewrite stringify_nonempty in Hl. rewrite Hsto in Hp.
  cbn [from_option id] in *. rewrite Hp in Hl. cbn [mbind result_bind] in Hl.
  rewrite Hb in Hl. cbn in Hl. by injection Hl as <-.
Qed.

Lemma commit_invariant (prev : State) (h : Heap) (sto : Storage)
    (u : Updates) :
  rating_vector (deref h (levelValues (apply_updates u prev))) ->
  stored_vector_ok sto ->
  (forall index, selectedLevel (apply_updates u prev) = Some index ->
     (index < length LEVELS)%nat) ->
  invariant (commit prev h sto u).
Proof.
  intros Hr Hs Hsel. unfold invariant, commit, ratings.
  cbn [heap storage state]. split; [done|]. split; [|done].
  pose proof (run_effects_values prev (apply_updates u prev) h sto) as E.
  case_decide.
  - by apply (stored_vector_ok_ext sto).
  - by eapply stored_vector_ok_written.
Qed.

Lemma ratings_lookup (w : World) :
  rating_vector (ratings w) ->
  heap w !! levelValues (state w) = Some (ratings w).
Proof.
  unfold ratings, deref. intros [Hlen _].
  by destruct (heap w !! levelValues (state w)).
Qed.

Lemma rating_vector_assign (a : list jsval) (i : nat) (v : Z) :
  rating_vector a -> (i < length LEVELS)%nat -> 0 <= v <= 100 ->
  rating_vector (array_assign a i (Num v)).
Proof.
  intros [Hlen Ha] Hi Hv. cbn in Hi. unfold array_assign.
  rewrite decide_True by lia. split; [by rewrite length_insert|].
  apply Forall_insert; done.
Qed.

Lemma mount_invariant (sto : Storage) (w : World) :
  stored_vector_ok sto -> mount sto = Ok w -> invariant w.
Proof.
  intros Hsto Hm.
  pose proof (mount_ratings sto w Hm) as Hr.
  apply mount_Ok in Hm as (lv & hist & h1 & h2 & Hlv & Hh & ->).
  apply commit_invariant.
  - change (rating_vector (ratings (commit (initial_state 0%nat) h2
      (persist_userName (initial_state 0%nat)
         (persist_levelValues h2 (initial_state 0%nat) sto))
      (mkUpdates lv None hist None (load_userName sto))))).
    destruct Hr as [[_ ->]|(j & Ht & Hp & Ha)].
    + apply default_ratings_vector.
    + by eapply Hsto.
  - apply (stored_vector_ok_written _ (deref h2 0%nat)).
    + apply load_history_cases in Hh as [[new ->] _].
      apply load_levelValues_cases in Hlv
        as [(_ & _ & ->)|(j & a & _ & _ & _ & _ & ->)];
        apply default_ratings_vector.
    + unfold persist_userName, persist_levelValues.
      rewrite !getItem_setItem. by rewrite decide_False, decide_True.
  - intros index. cbn. done.
Qed.

Lemma step_invariant (w : World) (e : Event) :
  invariant w -> ui_event e -> invariant (step w e).
Proof.
  intros (Hr & Hs & Hsel) He. pose proof (ratings_lookup w Hr) as Hl.
  unfold step, handle.
  destruct e as [i v|v|t|now|[]| |i|]; cbn [ui_event] in He.
  - rewrite handleSliderChange_eq. cbv beta iota zeta.
    apply commit_invariant; [|done|exact Hsel].
    cbn. rewrite deref_snoc. destruct He as [Hi Hv].
    apply rating_vector_assign; [exact Hr|exact Hi|exact Hv].
  - destruct (selectedLevel (state w)) as [i|] eqn:Ei.
    + rewrite handleSliderChange_eq. cbv beta iota zeta.
      apply commit_invariant; [|done|cbn; by rewrite Ei].
      cbn. rewrite deref_snoc.
      apply rating_vector_assign; [exact Hr|by apply Hsel|exact He].
    + apply commit_invariant; [done|done|cbn; by rewrite Ei].
  - by apply commit_invariant.
  - destruct (save_disabled (state w)); [by apply commit_invariant|].
    unfold saveSnapshot. cbn [alloc].
    apply commit_invariant; [| |exact Hsel].
    + cbn. unfold deref. by rewrite (lookup_app_l_Some _ _ _ _ Hl).
    + by apply (stored_vector_ok_ext (storage w));
        [rewrite getItem_setItem, decide_False|].
  - unfold resetData. cbn [alloc]. apply commit_invariant; [| |exact Hsel].
    + cbn. rewrite deref_snoc. apply default_ratings_vector.
    + apply stored_vector_ok_absent.
      rewrite !getItem_removeItem.
      by rewrite decide_False, decide_False, decide_True.
  - by apply commit_invariant.
  - by apply commit_invariant.
  - apply commit_invariant; [done..|]. cbn. by intros ? [= <-].
  - apply commit_invariant; [done..|]. cbn. done.
Qed.

Lemma reachable_invariant (sto0 : Storage) (w : World) :
  stored_vector_ok sto0 -> reachable sto0 w -> invariant w.
Proof.
  intros Hs. induction 1 as [w Hm|w e _ IH He|w w' _ IH Hm].
  - by eapply mount_invariant.
  - by apply step_invariant.
  - eapply mount_invariant; [|done]. apply IH.
Qed.

Example mount_short_vector :
  exists w,
    mount (setItem needsPyramidValues "[1,2,3]" ∅) = Ok w
    /\ ratings w = [Num 1; Num 2; Num 3].
Proof. eexists. split; reflexivity. Qed.

(** C8 as stated fails: a page mounted from a storage holding the text
    [[1,2,3]] under the rating vector key shows a vector of three entries. *)
Lemma rating_invariant_fails_on_load :
  ~ (forall sto w, reachable sto w -> rating_vector (ratings w)).
Proof.
  intros H.
  pose (sto := setItem needsPyramidValues "[1,2,3]" ∅ : Storage).
  destruct (mount sto) as [w|] eqn:Hm; [|by vm_compute in Hm].
  specialize (H sto w (reach_mount sto w Hm)) as [Hlen _].
  vm_compute in Hm. injection Hm as <-. vm_compute in Hlen. discriminate.
Qed.

(** C8, amended.  If the rating vector held by the initial storage, when
    it loads at all, has six entries in [0,100], then so has the rating
    vector of every page reached by mounting, operating the controls and
    loading the page again. *)
Theorem rating_invariant (sto0 : Storage) (w : World) :
  stored_vector_ok sto0 -> reachable sto0 w ->
  rating_vector (ratings w).
Proof. intros Hs Hr. by destruct (reachable_invariant sto0 w Hs Hr). Qed.

Lemma rating_invariant_witness :
  let w := step first_visit (SliderChange 2 30) in
  stored_vector_ok ∅ /\ reachable ∅ w /\ rating_vector (ratings w).
Proof.
  intros w.
  assert (H1 : stored_vector_ok ∅).
  { intros j a Ht. vm_compute in Ht. discriminate. }
  assert (H2 : reachable ∅ w).
  { apply reach_step; [apply reach_mount; reflexivity|]. cbn. lia. }
  split; [exact H1|]. split; [exact H2|].
  exact (rating_invariant ∅ w H1 H2).
Defined.

(** ** The parser never runs out of fuel *)

Section Fuel.
Import JSON.

Lemma skip_ws_length (s : string) :
  (String.length (skip_ws s) <= String.length s)%nat.
Proof.
  induction s as [|c r IH]; cbn; [lia|]. destruct (is_ws c); cbn; lia.
Qed.

Lemma span_digits_length (s ds rest : string) :
  span_digits s = (ds, rest) ->
  String.length s = (String.length ds + String.length rest)%nat.
Proof.
  revert ds rest. induction s as [|c r IH]; intros ds rest; cbn.
  - by intros [= <- <-].
  - destruct (is_digit c).
    + destruct (span_digits r) as [d rest']. intros [= <- <-].
      cbn. by rewrite (IH d rest').
    + by intros [= <- <-].
Qed.

Lemma consumes_err {A : Type} (s : string) :
  consumes (@Err (A * string) SyntaxError) s.
Proof. split; [by intros e [= <-]|done]. Qed.

Lemma consumes_ok {A : Type} (v : A) (rest s : string) :
  (String.length rest < String.length s)%nat -> consumes (Ok (v, rest)) s.
Proof. intros Hl. split; [done|]. by intros ? ? [= <- <-]. Qed.

Lemma consumes_shorter {A : Type} (r : result (A * string)) (s t : string) :
  (String.length s <= String.length t)%nat -> consumes r s -> consumes r t.
Proof.
  intros Hl [H1 H2]. split; [done|]. intros v rest E. apply H2 in E. lia.
Qed.

Lemma consumes_fuel {A : Type} (r : result (A * string)) (s : string) :
  consumes r s -> r <> Err OutOfFuel.
Proof. intros [H _] E. by apply H in E. Qed.

(** What follows the fraction, and what follows the exponent, is no longer
    than the text they start in. *)
Lemma parse_fraction_length (s fs rest : string) :
  parse_fraction s = Ok (fs, rest) ->
  (String.length rest <= String.length s)%nat.
Proof.
  unfold parse_fraction. destruct s as [|c r]; [by intros [= <- <-]|].
  destruct (code c =? 46)%N; [|by intros [= <- <-]].
  destruct (span_digits r) as [fs' rest'] eqn:E.
  apply span_digits_length in E. destruct fs'; [done|].
  intros [= <- <-]. cbn in *. lia.
Qed.

Lemma parse_exponent_length (s : string) (e : Z) (rest : string) :
  parse_exponent s = Ok (e, rest) ->
  (String.length rest <= String.length s)%nat.
Proof.
  unfold parse_exponent. destruct s as [|c r]; [by intros [= <- <-]|].
  destruct (_ || _)%bool; [|by intros [= <- <-]].
  assert (H : forall neg r1,
    (String.length r1 <= String.length r)%nat ->
    (let '(es, rest0) := span_digits r1 in
     match es with
     | "" => Err SyntaxError
     | String _ _ =>
         Ok (if neg : bool then - digits_value es else digits_value es, rest0)
     end) = Ok (e, rest) ->
    (String.length rest <= String.length (String c r))%nat).
  { intros neg r1 Hr1. destruct (span_digits r1) as [es rest0] eqn:E.
    apply span_digits_length in E. destruct es; [done|].
    intros [= <- <-]. cbn in *. lia. }
  destruct r as [|sign r']; [by apply (H false "")|].
  destruct (code sign =? 43)%N; [apply (H false r'); cbn; lia|].
  destruct (code sign =? 45)%N;
    [apply (H true r')|apply (H false (String sign r'))]; cbn; lia.
Qed.

Lemma parse_fraction_throws (s : string) (e : error) :
  parse_fraction s = Err e -> e = SyntaxError.
Proof.
  unfold parse_fraction. destruct s as [|c r]; [done|].
  destruct (code c =? 46)%N; [|done].
  destruct (span_digits r) as [[|] ?]; [|done]. by intros [= <-].
Qed.

Lemma parse_exponent_throws (s : string) (e : error) :
  parse_exponent s = Err e -> e = SyntaxError.
Proof.
  unfold parse_exponent. destruct s as [|c r]; [done|].
  destruct (_ || _)%bool; [|done].
  destruct r as [|sign r'].
  - destruct (span_digits "") as [[|] ?]; [|done]. by intros [= <-].
  - destruct (code sign =? 43)%N; [|destruct (code sign =? 45)%N];
      (destruct (span_digits _) as [[|] ?]; [|done]); by intros [= <-].
Qed.

Lemma parse_digits_length (neg : bool) (s : string) :
  consumes (parse_digits neg s) s.
Proof.
  unfold parse_digits. destruct (span_digits s) as [ds r0] eqn:E.
  apply span_digits_length in E.
  destruct ds as [|c ds']; [apply consumes_err|].
  destruct (_ && _)%bool; [apply consumes_err|].
  destruct (parse_fraction r0) as [[fs r1]|e] eqn:Ef; cbn [mbind result_bind].
  2:{ apply parse_fraction_throws in Ef as ->. apply consumes_err. }
  apply parse_fraction_length in Ef.
  destruct (parse_exponent r1) as [[x rest]|e] eqn:Ee; cbn [mbind result_bind].
  2:{ apply parse_exponent_throws in Ee as ->. apply consumes_err. }
  apply parse_exponent_length in Ee.
  apply consumes_ok. cbn in E. lia.
Qed.

Lemma parse_number_length (s : string) : consumes (parse_number s) s.
Proof.
  unfold parse_number. destruct s as [|c r0]; [apply consumes_err|].
  destruct (code c =? 45)%N.
  - apply (consumes_shorter _ r0); [cbn; lia|]. apply parse_digits_length.
  - apply parse_digits_length.
Qed.

Lemma strip_prefix_length (p s r : string) :
  strip_prefix p s = Some r ->
  String.length s = (String.length p + String.length r)%nat.
Proof.
  revert s. induction p as [|a p IH]; intros s; cbn.
  - by intros [= ->].
  - destruct s as [|b s]; [done|]. destruct (_ =? _)%N; [|done].
    intros H. cbn. by rewrite (IH s H).
Qed.

Lemma parse_literal_length (s : string) : consumes (parse_literal s) s.
Proof.
  unfold parse_literal.
  destruct (strip_prefix "true" s) eqn:E1.
  { apply strip_prefix_length in E1. apply consumes_ok. cbn in E1. lia. }
  destruct (strip_prefix "false" s) eqn:E2.
  { apply strip_prefix_length in E2. apply consumes_ok. cbn in E2. lia. }
  destruct (strip_prefix "null" s) eqn:E3.
  { apply strip_prefix_length in E3. apply consumes_ok. cbn in E3. lia. }
  apply parse_number_length.
Qed.

Lemma consumes_map {A B : Type} (r : result (A * string)) (s t : string)
    (g : A -> B) :
  (String.length s < String.length t)%nat \/ s = t ->
  consumes r s ->
  consumes ('(b, rest) ← r; Ok (g b, rest)) t.
Proof.
  intros Hl [H1 H2]. destruct r as [[b rest]|e]; cbn.
  - apply consumes_ok. specialize (H2 b rest eq_refl).
    destruct Hl as [|<-]; lia.
  - rewrite (H1 e eq_refl). apply consumes_err.
Qed.

Lemma parse_string_body_length (n : nat) (s : string) :
  (String.length s < n)%nat -> consumes (parse_string_body s) s.
Proof.
  revert s. induction n as [|n IH]; intros s Hn; [lia|].
  destruct s as [|c r0]; [apply consumes_err|].
  cbn [parse_string_body]. cbn zeta.
  destruct (code c =? 34)%N; [apply consumes_ok; cbn; lia|].
  destruct (code c =? 92)%N.
  { destruct r0 as [|e r1]; [apply consumes_err|].
    destruct (unescape e).
    - apply (consumes_map _ r1); [cbn; lia|]. apply IH. cbn in Hn. lia.
    - destruct (code e =? 117)%N; [|apply consumes_err].
      destruct r1 as [|h1 [|h2 [|h3 [|h4 r2]]]]; try apply consumes_err.
      destruct (hex4 h1 h2 h3 h4) as [v|]; [|apply consumes_err].
      apply (consumes_map _ r2 _
               (fun b => if (v <? 256)%N then option_map (String (ascii_of_N v)) b
                         else None)); [cbn; lia|].
      apply IH. cbn in Hn. lia. }
  destruct (code c <? 32)%N; [apply consumes_err|].
  apply (consumes_map _ r0); [cbn; lia|]. apply IH. cbn in Hn. lia.
Qed.

Lemma consumes_bind {A B : Type} (r : result (A * string)) (s : string)
    (k : A * string -> result (B * string)) :
  consumes r s ->
  (forall v rest, r = Ok (v, rest) ->
     (String.length rest < String.length s)%nat -> consumes (k (v, rest)) s) ->
  consumes (r ≫= k) s.
Proof.
  intros [H1 H2] Hk. destruct r as [[v rest]|e]; cbn.
  - apply Hk; [done|]. by apply (H2 v rest).
  - rewrite (H1 e eq_refl). apply consumes_err.
Qed.

Lemma parse_fuel_all (f : nat) :
  (forall s, (2 * String.length s < f)%nat -> consumes (parse_value f s) s)
  /\ (forall s, (2 * String.length s + 2 <= f)%nat ->
        consumes (parse_elements f s) s)
  /\ (forall s, (2 * String.length s + 2 <= f)%nat ->
        consumes (parse_members f s) s).
Proof.
  induction f as [|f (IHv & IHe & IHm)]; [repeat split; intros; lia|].
  split; [|split]; intros s Hf.
  - cbn [parse_value]. pose proof (skip_ws_length s) as Hws.
    destruct (skip_ws s) as [|c r] eqn:Es; [by apply consumes_err|].
    cbn [String.length] in Hws. cbn zeta.
    destruct (code c =? 91)%N.
    { pose proof (skip_ws_length r) as Hwr.
      destruct (skip_ws r) as [|c' r'] eqn:Er; [by apply consumes_err|].
      cbn [String.length] in Hwr.
      destruct (code c' =? 93)%N; [apply consumes_ok; lia|].
      apply consumes_bind.
      - apply (consumes_shorter _ (String c' r')); [cbn; lia|].
        apply IHe. cbn. lia.
      - intros v rest _ Hl. apply consumes_ok. lia. }
    destruct (code c =? 123)%N.
    { pose proof (skip_ws_length r) as Hwr.
      destruct (skip_ws r) as [|c' r'] eqn:Er; [by apply consumes_err|].
      cbn [String.length] in Hwr.
      destruct (code c' =? 125)%N; [apply consumes_ok; lia|].
      apply consumes_bind.
      - apply (consumes_shorter _ (String c' r')); [cbn; lia|].
        apply IHm. cbn. lia.
      - intros v rest _ Hl. apply consumes_ok. lia. }
    destruct (code c =? 34)%N.
    { apply consumes_bind.
      - apply (consumes_shorter _ r); [lia|].
        apply (parse_string_body_length (S (String.length r))). lia.
      - intros v rest _ Hl. apply consumes_ok. lia. }
    apply (consumes_shorter _ (String c r)); [cbn; lia|].
    apply parse_literal_length.
  - cbn [parse_elements]. apply consumes_bind; [apply IHv; lia|].
    intros v r _ Hr. pose proof (skip_ws_length r) as Hwr.
    destruct (skip_ws r) as [|c r'] eqn:Er; [by apply consumes_err|].
    cbn [String.length] in Hwr.
    destruct (code c =? 44)%N.
    { apply consumes_bind.
      - apply (consumes_shorter _ r'); [lia|]. apply IHe. lia.
      - intros l rest _ Hl. apply consumes_ok. lia. }
    destruct (code c =? 93)%N; [apply consumes_ok; lia|by apply consumes_err].
  - cbn [parse_members]. pose proof (skip_ws_length s) as Hws.
    destruct (skip_ws s) as [|q r0] eqn:Es; [by apply consumes_err|].
    cbn [String.length] in Hws.
    destruct (code q =? 34)%N; [|by apply consumes_err].
    apply consumes_bind.
    { apply (consumes_shorter _ r0); [lia|].
      apply (parse_string_body_length (S (String.length r0))). lia. }
    intros k r1 _ Hr1. pose proof (skip_ws_length r1) as Hw1.
    destruct (skip_ws r1) as [|colon r2] eqn:E1; [by apply consumes_err|].
    cbn [String.length] in Hw1.
    destruct (code colon =? 58)%N; [|by apply consumes_err].
    apply consumes_bind.
    { apply (consumes_shorter _ r2); [lia|]. apply IHv. lia. }
    intros v r3 _ Hr3. pose proof (skip_ws_length r3) as Hw3.
    destruct (skip_ws r3) as [|c r4] eqn:E3; [by apply consumes_err|].
    cbn [String.length] in Hw3.
    destruct (code c =? 44)%N.
    { apply consumes_bind.
      - apply (consumes_shorter _ r4); [lia|]. apply IHm. lia.
      - intros l rest _ Hl. apply consumes_ok. lia. }
    destruct (code c =? 125)%N; [apply consumes_ok; lia|by apply consumes_err].
Qed.

(** [JSON.parse] either returns a value or throws a syntax error: the fuel
    given to the parser always suffices, and a text of the grammar is
    parsed even where the embedding has no term for what it denotes. *)
Lemma parse_throws (s : string) (e : error) :
  parse s = Err e -> e = SyntaxError.
Proof.
  unfold parse.
  destruct (proj1 (parse_fuel_all (2 * String.length s + 1)) s) as [H _];
    [lia|].
  destruct (parse_value _ s) as [[v rest]|e'] eqn:E; cbn.
  - destruct (skip_ws rest); [done|]. by intros [= <-].
  - intros [= <-]. by apply H.
Qed.

Lemma parse_fuel (s : string) : parse s <> Err OutOfFuel.
Proof. intros E. by apply parse_throws in E. Qed.

(** A text is not JSON exactly when [JSON.parse] throws the syntax error. *)
Lemma parse_not_json (s : string) :
  (forall j, parse s <> Ok j) <-> parse s = Err SyntaxError.
Proof.
  split.
  - intros H. destruct (parse s) as [j|e] eqn:E; [by destruct (H j)|].
    by rewrite (parse_throws s e E).
  - by intros -> j.
Qed.

End Fuel.

(** ** Pages reached by the component *)

Lemma commit_well_formed (prev : State) (h : Heap) (sto : Storage)
    (u : Updates) :
  (levelValues (apply_updates u prev) < length h)%nat ->
  well_formed (commit prev h sto u).
Proof. done. Qed.

Lemma mount_well_formed (sto : Storage) (w : World) :
  mount sto = Ok w -> well_formed w.
Proof.
  intros Hm. apply mount_Ok in Hm as (lv & hist & h1 & h2 & Hlv & Hh & ->).
  apply commit_well_formed.
  apply load_history_cases in Hh as [[new ->] _].
  apply load_levelValues_cases in Hlv
    as [(_ & -> & ->)|(j & a & _ & _ & _ & -> & ->)];
    cbn; rewrite ?length_app; cbn; lia.
Qed.

Lemma step_well_formed (w : World) (e : Event) :
  well_formed w -> well_formed (step w e).
Proof.
  unfold well_formed. intros Hwf. unfold step, handle.
  destruct e as [i v|v|t|now|[]| |i|]; cbn;
    try rewrite handleSliderChange_eq; cbn; rewrite ?length_app; cbn;
    try lia.
  - destruct (selectedLevel (state w)); [rewrite handleSliderChange_eq|]; cbn;
      rewrite ?length_app; cbn; lia.
  - destruct (save_disabled (state w)); cbn; rewrite ?length_app; cbn; lia.
Qed.

Lemma reachable_well_formed (sto0 : Storage) (w : World) :
  reachable sto0 w -> well_formed w.
Proof.
  induction 1 as [w Hm|w e _ IH He|w w' _ IH Hm].
  - by eapply mount_well_formed.
  - by apply step_well_formed.
  - by eapply mount_well_formed.
Qed.

(** The text under the rating vector key is always that of the rating
    vector on screen. *)
Lemma commit_values_in_sync (prev : State) (h : Heap) (sto : Storage)
    (u : Updates) :
  (levelValues (apply_updates u prev) = levelValues prev ->
   getItem needsPyramidValues sto
     = Some (JSON.stringify_array (deref h (levelValues prev)))) ->
  getItem needsPyramidValues (storage (commit prev h sto u))
    = Some (JSON.stringify_array (ratings (commit prev h sto u))).
Proof.
  intros H. unfold commit, ratings. cbn [heap storage state].
  rewrite run_effects_values. case_decide as E; [|done].
  rewrite E. by apply H.
Qed.

Lemma step_values_in_sync (w : World) (e : Event) :
  well_formed w ->
  getItem needsPyramidValues (storage w)
    = Some (JSON.stringify_array (ratings w)) ->
  getItem needsPyramidValues (storage (step w e))
    = Some (JSON.stringify_array (ratings (step w e))).
Proof.
  unfold well_formed. intros Hwf Hs.
  assert (Hl : heap w !! levelValues (state w) = Some (ratings w)).
  { unfold ratings, deref. destruct (lookup_lt_is_Some_2 _ _ Hwf) as [a ->].
    done. }
  unfold step, handle.
  destruct e as [i v|v|t|now|[]| |i|].
  - rewrite handleSliderChange_eq. cbv beta iota zeta.
    apply commit_values_in_sync. cbn. lia.
  - destruct (selectedLevel (state w)).
    + rewrite handleSliderChange_eq. cbv beta iota zeta.
      apply commit_values_in_sync. cbn. lia.
    + by apply commit_values_in_sync.
  - by apply commit_values_in_sync.
  - destruct (save_disabled (state w)); [by apply commit_values_in_sync|].
    unfold saveSnapshot. cbn [alloc]. apply commit_values_in_sync. intros _.
    rewrite getItem_setItem, decide_False by done.
    unfold deref. by rewrite (lookup_app_l_Some _ _ _ _ Hl).
  - unfold resetData. cbn [alloc]. apply commit_values_in_sync. cbn. lia.
  - by apply commit_values_in_sync.
  - by apply commit_values_in_sync.
  - by apply commit_values_in_sync.
  - by apply commit_values_in_sync.
Qed.

Lemma reachable_values_in_sync (sto0 : Storage) (w : World) :
  reachable sto0 w ->
  getItem needsPyramidValues (storage w)
    = Some (JSON.stringify_array (ratings w)).
Proof.
  induction 1 as [w Hm|w e Hr IH He|w w' _ IH Hm].
  - by apply mount_storage in Hm as [? _].
  - apply step_values_in_sync; [|done]. by eapply reachable_well_formed.
  - by apply mount_storage in Hm as [? _].
Qed.







(** A reset on a page whose name is empty removes the user name key: the
    effect on [[userName]] does not run. *)
Example reset_with_empty_name :
  getItem needsPyramidUserName (storage (step first_visit (ClickReset true)))
  = None.
Proof. reflexivity. Qed.

Example reset_after_name :
  let w := step (step first_visit (NameInput "Alice")) (ClickReset true) in
  getItem needsPyramidValues (storage w) = Some "[50,50,50,50,50,50]"
  /\ getItem needsPyramidHistory (storage w) = None
  /\ getItem needsPyramidUserName (storage w) = Some "".
Proof. repeat split. Qed.

(** ** JSON: string literals *)

Section Strings.
Import JSON.

Lemma parse_quote_char (c : ascii) (r : string) :
  parse_string_body (quote_char c +:+ r)
  = '(b, rest) ← parse_string_body r; Ok (option_map (String c) b, rest).
Proof.
  destruct c as [[] [] [] [] [] [] [] []]; reflexivity.
Qed.

Lemma parse_quote_body (s rest : string) :
  parse_string_body (quote_body s +:+ String dquote rest)
  = Ok (Some s, rest).
Proof.
  induction s as [|c s IH]; [reflexivity|].
  cbn [quote_body]. rewrite append_assoc, parse_quote_char, IH. reflexivity.
Qed.

End Strings.

(** ** JSON: more fuel changes nothing *)

Section Mono.
Import JSON.

Lemma parse_value_S (f : nat) (s : string) :
  parse_value (S f) s =
  match skip_ws s with
  | EmptyString => Err SyntaxError
  | String c r =>
      let n := code c in
      if (n =? 91)%N then
        match skip_ws r with
        | EmptyString => Err SyntaxError
        | String c' r' =>
            if (code c' =? 93)%N then Ok (JArr [], r')
            else
              '(l, rest) ← parse_elements f (String c' r');
              Ok (JArr l, rest)
        end
      else if (n =? 123)%N then
        match skip_ws r with
        | EmptyString => Err SyntaxError
        | String c' r' =>
            if (code c' =? 125)%N then Ok (JObj [], r')
            else
              '(l, rest) ← parse_members f (String c' r');
              Ok (from_option JObj JOutside l, rest)
        end
      else if (n =? 34)%N then
        '(b, rest) ← parse_string_body r;
        Ok (from_option JStr JOutside b, rest)
      else parse_literal (String c r)
  end.
Proof. reflexivity. Qed.

Lemma parse_members_S (f : nat) (s : string) :
  parse_members (S f) s =
  match skip_ws s with
  | EmptyString => Err SyntaxError
  | String q r0 =>
      if (code q =? 34)%N then
        '(k, r1) ← parse_string_body r0;
        match skip_ws r1 with
        | EmptyString => Err SyntaxError
        | String colon r2 =>
            if (code colon =? 58)%N then
              '(v, r3) ← parse_value f r2;
              match skip_ws r3 with
              | EmptyString => Err SyntaxError
              | String c r4 =>
                  if (code c =? 44)%N then
                    '(l, rest) ← parse_members f r4;
                    Ok (member k v l, rest)
                  else if (code c =? 125)%N
                  then Ok (member k v (Some []), r4)
                  else Err SyntaxError
              end
            else Err SyntaxError
        end
      else Err SyntaxError
  end.
Proof. reflexivity. Qed.

Lemma bind_mono {A B : Type} (x x' : result A) (k k' : A -> result B) :
  (x <> Err OutOfFuel -> x' = x) ->
  (forall a, x = Ok a -> k a <> Err OutOfFuel -> k' a = k a) ->
  x ≫= k <> Err OutOfFuel -> x' ≫= k' = x ≫= k.
Proof.
  intros Hx Hk H. destruct x as [a|e]; cbn in *.
  - rewrite Hx by done. cbn. by apply Hk.
  - rewrite Hx by congruence. done.
Qed.

(** More fuel does not change a result that was not a lack of fuel. *)
Lemma parse_more_fuel (f : nat) :
  (forall s, parse_value f s <> Err OutOfFuel ->
     parse_value (S f) s = parse_value f s)
  /\ (forall s, parse_elements f s <> Err OutOfFuel ->
       parse_elements (S f) s = parse_elements f s)
  /\ (forall s, parse_members f s <> Err OutOfFuel ->
       parse_members (S f) s = parse_members f s).
Proof.
  induction f as [|f (IHv & IHe & IHm)]; [by repeat split|].
  split; [|split]; intros s.
  - rewrite (parse_value_S (S f)), (parse_value_S f).
    destruct (skip_ws s) as [|c r]; [done|]. cbn zeta.
    destruct (code c =? 91)%N.
    { destruct (skip_ws r) as [|c' r']; [done|].
      destruct (code c' =? 93)%N; [done|].
      apply bind_mono; [apply IHe|done]. }
    destruct (code c =? 123)%N; [|done].
    destruct (skip_ws r) as [|c' r']; [done|].
    destruct (code c' =? 125)%N; [done|].
    apply bind_mono; [apply IHm|done].
  - rewrite (parse_elements_S (S f)), (parse_elements_S f).
    apply bind_mono; [apply IHv|]. intros [v r] _.
    destruct (skip_ws r) as [|c r']; [done|].
    destruct (code c =? 44)%N; [|done].
    apply bind_mono; [apply IHe|done].
  - rewrite (parse_members_S (S f)), (parse_members_S f).
    destruct (skip_ws s) as [|q r0]; [done|].
    destruct (code q =? 34)%N; [|done].
    apply bind_mono; [done|]. intros [k r1] _.
    destruct (skip_ws r1) as [|colon r2]; [done|].
    destruct (code colon =? 58)%N; [|done].
    apply bind_mono; [apply IHv|]. intros [v r3] _.
    destruct (skip_ws r3) as [|c r4]; [done|].
    destruct (code c =? 44)%N; [|done].
    apply bind_mono; [apply IHm|done].
Qed.

Lemma parse_value_fuel_le (f f' : nat) (s : string) :
  (f <= f')%nat -> parse_value f s <> Err OutOfFuel ->
  parse_value f' s = parse_value f s.
Proof.
  induction 1 as [|f' _ IH]; [done|]. intros H. specialize (IH H).
  rewrite (proj1 (parse_more_fuel f')) by (by rewrite IH). done.
Qed.

(** Any amount of fuel that gives a value gives the value of [parse]. *)
Lemma parse_with_fuel (f : nat) (s : string) (v : json) (rest : string) :
  parse_value f s = Ok (v, rest) -> skip_ws rest = "" -> parse s = Ok v.
Proof.
  intros H Hrest. unfold parse.
  assert (E : parse_value (2 * String.length s + 1) s = Ok (v, rest)).
  { destruct (Nat.le_ge_cases f (2 * String.length s + 1)) as [Hle|Hge].
    - rewrite (parse_value_fuel_le f _ s Hle) by (by rewrite H). done.
    - rewrite <- H. symmetry. apply parse_value_fuel_le; [done|].
      apply (consumes_fuel _ s).
      apply (parse_fuel_all (2 * String.length s + 1)). lia. }
  rewrite E. cbn. by rewrite Hrest.
Qed.

End Mono.

(** ** The round trip of the history *)

Section HistoryText.
Import JSON.

Lemma parse_value_string (f : nat) (s rest : string) :
  parse_value (S f) (stringify_string s +:+ rest) = Ok (JStr s, rest).
Proof.
  unfold stringify_string. cbn [String.append]. rewrite parse_value_S.
  cbn [skip_ws]. change (is_ws dquote) with false. cbn iota zeta.
  change (code dquote =? 91)%N with false.
  change (code dquote =? 123)%N with false.
  change (code dquote =? 34)%N with true. cbn iota.
  rewrite append_assoc. cbn [String.append]. by rewrite parse_quote_body.
Qed.

Lemma parse_value_array (f : nat) (zs : list Z) (rest : string) :
  (length zs + 1 < f)%nat -> Forall exact zs ->
  parse_value f (stringify_array (map Num zs) +:+ rest)
  = Ok (JArr (map JNum zs), rest).
Proof.
  intros Hf Hall. destruct f as [|f]; [lia|].
  unfold stringify_array. cbn [String.append]. rewrite parse_value_S.
  cbn [skip_ws]. change (is_ws "[") with false. cbn iota zeta.
  change (code "[" =? 91)%N with true. cbn iota.
  rewrite append_assoc. cbn [String.append].
  set (body := join_comma (map stringify_entry (map Num zs))).
  destruct zs as [|z zs]; [reflexivity|].
  assert (Hws : exists c r, body +:+ String "]" rest = String c r
             /\ is_ws c = false /\ (code c =? 93)%N = false).
  { unfold body. cbn [map stringify_entry].
    destruct (stringify_number_head z) as (c & r & E & Hc).
    destruct zs as [|z' zs].
    - cbn [map join_comma]. rewrite E. cbn [String.append].
      eexists _, _. split; [done|]. unfold is_ws. cbn zeta.
      split; code_test; done.
    - cbn [map stringify_entry]. rewrite join_comma_cons, E.
      cbn [String.append]. eexists _, _. split; [done|].
      unfold is_ws. cbn zeta. split; code_test; done. }
  destruct Hws as (c & r & E & Hw & Hc).
  rewrite E. cbn [skip_ws]. rewrite Hw, Hc, <- E.
  subst body. rewrite parse_elements_numbers; [done|done| |done].
  cbn [length] in *. lia.
Qed.

Lemma stringify_key_cons (k rest : string) :
  stringify_key k +:+ rest
  = String dquote (quote_body k +:+ String dquote (String ":" rest)).
Proof.
  unfold stringify_key, stringify_string. cbn [String.append].
  by rewrite !append_assoc.
Qed.

(** One member of an object: its key, the colon, and then its value. *)
Lemma parse_members_key (f : nat) (k text : string) :
  parse_members (S f) (stringify_key k +:+ text)
  = '(v, r3) ← parse_value f text;
    match skip_ws r3 with
    | EmptyString => Err SyntaxError
    | String c r4 =>
        if (code c =? 44)%N then
          '(l, rest) ← parse_members f r4; Ok (member (Some k) v l, rest)
        else if (code c =? 125)%N then Ok (Some [(k, v)], r4)
        else Err SyntaxError
    end.
Proof.
  rewrite stringify_key_cons, parse_members_S. cbn [skip_ws].
  change (is_ws dquote) with false. cbn iota.
  change (code dquote =? 34)%N with true. cbn iota.
  rewrite parse_quote_body. cbn [mbind result_bind skip_ws].
  change (is_ws ":") with false. cbn iota.
  change (code ":" =? 58)%N with true. reflexivity.
Qed.

Lemma stringify_snapshot_text (h : Heap) (s : Snapshot.t) (rest : string) :
  stringify_snapshot h s +:+ rest
  = String "{"
      (stringify_key "date" +:+ stringify_string (Snapshot.date s) +:+
       String ","
         (stringify_key "values" +:+
          stringify_array (deref h (Snapshot.values s)) +:+
          String ","
            (stringify_key "userName" +:+
             stringify_string (Snapshot.userName s) +:+ String "}" rest))).
Proof.
  unfold stringify_snapshot. rewrite !append_assoc. reflexivity.
Qed.

Lemma parse_value_snapshot (f : nat) (h : Heap) (s : Snapshot.t)
    (zs : list Z) (rest : string) :
  deref h (Snapshot.values s) = map Num zs -> Forall exact zs ->
  (length zs + 5 < f)%nat ->
  parse_value f (stringify_snapshot h s +:+ rest)
  = Ok (JObj [("date", JStr (Snapshot.date s));
              ("values", JArr (map JNum zs));
              ("userName", JStr (Snapshot.userName s))], rest).
Proof.
  intros Hd Hzs Hf. destruct f as [|[|[|[|[|f]]]]]; [lia..|].
  rewrite stringify_snapshot_text, Hd, parse_value_S.
  cbn [skip_ws]. change (is_ws "{") with false. cbn iota zeta.
  change (code "{" =? 91)%N with false.
  change (code "{" =? 123)%N with true. cbn iota.
  rewrite (stringify_key_cons "date"). cbn [skip_ws].
  change (is_ws dquote) with false. cbn iota.
  change (code dquote =? 125)%N with false. cbn iota.
  rewrite <- (stringify_key_cons "date").
  rewrite parse_members_key, parse_value_string.
  cbn [mbind result_bind skip_ws]. change (is_ws ",") with false.
  change (code "," =? 44)%N with true. cbn iota.
  rewrite parse_members_key, parse_value_array by (done || lia).
  cbn [mbind result_bind skip_ws]. change (is_ws ",") with false.
  change (code "," =? 44)%N with true. cbn iota.
  rewrite parse_members_key, parse_value_string.
  cbn [mbind result_bind skip_ws]. change (is_ws "}") with false.
  change (code "}" =? 44)%N with false.
  change (code "}" =? 125)%N with true. reflexivity.
Qed.

Lemma snapshot_json_numeric (h : Heap) (s : Snapshot.t) (zs : list Z) :
  deref h (Snapshot.values s) = map Num zs ->
  snapshot_json h s
  = JObj [("date", JStr (Snapshot.date s));
          ("values", JArr (map JNum zs));
          ("userName", JStr (Snapshot.userName s))].
Proof.
  intros Hd. unfold snapshot_json. rewrite Hd, map_map. reflexivity.
Qed.

Lemma parse_elements_snapshots (h : Heap) (l : list Snapshot.t)
    (rest : string) :
  l <> [] -> numeric_history h l ->
  exists f0, forall f, (f0 <= f)%nat ->
    parse_elements f
      (join_comma (map (stringify_snapshot h) l) +:+ String "]" rest)
    = Ok (map (snapshot_json h) l, rest).
Proof.
  intros Hne Hall. induction Hall as [|s l (zs & Hd & Hzs) Hall IH]; [done|].
  destruct l as [|s' l].
  - exists (length zs + 7)%nat. intros f Hf.
    destruct f as [|f]; [lia|].
    cbn [map join_comma]. rewrite parse_elements_S.
    rewrite (parse_value_snapshot f h s zs) by (done || lia).
    cbn [mbind result_bind skip_ws]. change (is_ws "]") with false.
    change (code "]" =? 44)%N with false.
    change (code "]" =? 93)%N with true. cbn iota.
    by rewrite (snapshot_json_numeric h s zs).
  - destruct IH as [f0 IH]; [done|].
    exists (S (Nat.max f0 (length zs + 6))). intros f Hf.
    destruct f as [|f]; [lia|].
    cbn [map]. rewrite join_comma_cons, append_assoc. cbn [String.append].
    rewrite parse_elements_S.
    rewrite (parse_value_snapshot f h s zs) by (done || lia).
    cbn [mbind result_bind skip_ws]. change (is_ws ",") with false.
    change (code "," =? 44)%N with true. cbn iota.
    cbn [map] in IH. rewrite IH by lia. cbn [mbind result_bind].
    by rewrite (snapshot_json_numeric h s zs).
Qed.

Lemma parse_stringify_history (h : Heap) (l : list Snapshot.t) :
  numeric_history h l ->
  parse (stringify_history h l) = Ok (JArr (map (snapshot_json h) l)).
Proof.
  intros Hall. destruct l as [|s l]; [reflexivity|].
  destruct (parse_elements_snapshots h (s :: l) "") as [f0 Hf0]; [done..|].
  apply (parse_with_fuel (S f0) _ _ ""); [|done].
  unfold stringify_history. cbn [String.append]. rewrite parse_value_S.
  cbn [skip_ws]. change (is_ws "[") with false. cbn iota zeta.
  change (code "[" =? 91)%N with true. cbn iota.
  cbn [map] in Hf0 |- *.
  assert (E : exists r, join_comma (stringify_snapshot h s :: map (stringify_snapshot h) l) +:+ "]"
               = String "{" r).
  { destruct l as [|s' l]; cbn [map join_comma].
    - rewrite stringify_snapshot_text. by eexists.
    - rewrite append_assoc, stringify_snapshot_text. by eexists. }
  destruct E as [r E]. rewrite E. cbn [skip_ws].
  change (is_ws "{") with false. cbn iota.
  change (code "{" =? 93)%N with false. cbn iota. rewrite <- E.
  change (?x +:+ "]") with (x +:+ String "]" "").
  rewrite (Hf0 f0) by done. reflexivity.
Qed.

End HistoryText.

(** ** Reading the storage by content *)

Section Views.
Import JSON.

Lemma as_snapshot_view (h : Heap) (j : json) :
  as_snapshot h j
  = '(d, a, u) ← view_of_json j; Ok (Snapshot.mk d (length h) u, h ++ [a]).
Proof.
  unfold as_snapshot, view_of_json.
  repeat (case_match; try reflexivity).
  by destruct (as_number_array _).
Qed.

Lemma as_snapshots_views (js : list json) (h : Heap) :
  match views_of_json js with
  | Ok vs =>
      exists l new,
        as_snapshots h js = Ok (l, h ++ new)
        /\ map (snapshot_view (h ++ new)) l = vs
        /\ Forall (fun s => (Snapshot.values s < length (h ++ new))%nat) l
  | Err e => as_snapshots h js = Err e
  end.
Proof.
  revert h. induction js as [|j js IH]; intros h; cbn.
  - exists [], []. by rewrite app_nil_r.
  - rewrite as_snapshot_view.
    destruct (view_of_json j) as [[[d a] u]|e]; cbn; [|done].
    specialize (IH (h ++ [a])).
    destruct (views_of_json js) as [vs|e]; cbn; [|by rewrite IH].
    destruct IH as (l & new & -> & Hv & Hwf). cbn.
    exists (Snapshot.mk d (length h) u :: l), (a :: new).
    rewrite <- app_assoc in *. cbn in *. split; [done|].
    split.
    + rewrite Hv. unfold snapshot_view at 1. cbn.
      unfold deref. by rewrite list_lookup_middle.
    + constructor; [|done]. cbn. rewrite length_app. cbn. lia.
Qed.

Lemma load_history_stored (h : Heap) (sto : Storage) :
  match stored_history sto with
  | Ok vs =>
      exists o new,
        load_history h sto = Ok (o, h ++ new)
        /\ map (snapshot_view (h ++ new)) (default [] o) = vs
        /\ Forall (fun s => (Snapshot.values s < length (h ++ new))%nat)
             (default [] o)
  | Err e => load_history h sto = Err e
  end.
Proof.
  unfold stored_history, load_history.
  destruct (truthy _).
  - destruct (parse _) as [j|e]; cbn; [|done].
    destruct j as [| | | |l| |]; cbn; try done.
    pose proof (as_snapshots_views l h) as H.
    destruct (views_of_json l) as [vs|e]; [|by rewrite H].
    destruct H as (l' & new & -> & Hv & Hwf). cbn. by exists (Some l'), new.
  - exists None, []. by rewrite app_nil_r.
Qed.

Lemma exact_json_arr (l : list json) :
  exact_json (JArr l) <-> Forall exact_json l.
Proof.
  induction l as [|x l IH]; cbn in *; [by split|].
  rewrite Forall_cons. by rewrite IH.
Qed.

Lemma exact_json_obj (l : list (string * json)) :
  exact_json (JObj l) <-> Forall (fun kv => exact_json kv.2) l.
Proof.
  induction l as [|[k x] l IH]; cbn in *; [by split|].
  rewrite Forall_cons. by rewrite IH.
Qed.

Lemma digits_value_nonneg (ds : string) : 0 <= digits_value ds.
Proof.
  unfold digits_value. destruct (NilEmpty.uint_of_string ds); [|done].
  unfold Z.of_uint. lia.
Qed.

Lemma scale_exact (m e z : Z) :
  0 <= m -> scale m e = Some z -> 0 <= z <= max_exact.
Proof.
  intros Hm. unfold scale.
  destruct (m =? 0); [by intros [= <-]|].
  destruct (0 <=? e) eqn:He.
  - destruct (e <=? 16); [|done]. cbn zeta.
    destruct (Z.leb_spec (m * 10 ^ e) max_exact); [|done].
    intros [= <-]. split; [|done].
    apply Z.mul_nonneg_nonneg; [done|]. apply Z.pow_nonneg. lia.
  - destruct (_ <? _); [done|]. cbn zeta.
    destruct (_ =? 0); [|done]. cbn [andb].
    destruct (Z.leb_spec (m / 10 ^ (- e)) max_exact); [|done].
    intros [= <-]. split; [|done].
    apply Z.div_pos; [done|]. apply Z.pow_pos_nonneg; lia.
Qed.

Lemma parse_digits_exact (neg : bool) (s rest : string) (v : json) :
  parse_digits neg s = Ok (v, rest) -> exact_json v.
Proof.
  unfold parse_digits. destruct (span_digits s) as [ds r].
  destruct ds as [|c ds']; [done|].
  destruct (_ && _)%bool; [done|].
  destruct (parse_fraction r) as [[fs r1]|]; cbn [mbind result_bind]; [|done].
  destruct (parse_exponent r1) as [[e r2]|]; cbn [mbind result_bind]; [|done].
  destruct (scale _ _) as [z|] eqn:E; intros [= <- <-]; [|done].
  apply scale_exact in E; [|apply digits_value_nonneg].
  cbn. unfold exact. destruct neg; lia.
Qed.

Lemma parse_literal_exact (s rest : string) (v : json) :
  parse_literal s = Ok (v, rest) -> exact_json v.
Proof.
  unfold parse_literal.
  destruct (strip_prefix "true" s); [by intros [= <- <-]|].
  destruct (strip_prefix "false" s); [by intros [= <- <-]|].
  destruct (strip_prefix "null" s); [by intros [= <- <-]|].
  unfold parse_number. destruct s as [|c r]; [done|].
  destruct (code c =? 45)%N; apply parse_digits_exact.
Qed.

(** [JSON.parse] yields only numbers within [max_exact]. *)
Lemma parse_exact_all (f : nat) :
  (forall s v rest, parse_value f s = Ok (v, rest) -> exact_json v)
  /\ (forall s l rest, parse_elements f s = Ok (l, rest) ->
        Forall exact_json l)
  /\ (forall s l rest, parse_members f s = Ok (Some l, rest) ->
        Forall (fun kv => exact_json kv.2) l).
Proof.
  induction f as [|f (IHv & IHe & IHm)]; [by repeat split|].
  split; [|split]; intros s.
  - intros v rest. rewrite parse_value_S.
    destruct (skip_ws s) as [|c r]; [done|]. cbn zeta.
    destruct (code c =? 91)%N.
    { destruct (skip_ws r) as [|c' r']; [done|].
      destruct (code c' =? 93)%N; [by intros [= <- <-]|].
      destruct (parse_elements f _) as [[l rest']|] eqn:E; cbn; [|done].
      intros [= <- <-]. apply exact_json_arr. by eapply IHe. }
    destruct (code c =? 123)%N.
    { destruct (skip_ws r) as [|c' r']; [done|].
      destruct (code c' =? 125)%N; [by intros [= <- <-]|].
      destruct (parse_members f _) as [[[l|] rest']|] eqn:E; cbn; [| |done].
      - intros [= <- <-]. apply exact_json_obj. by eapply IHm.
      - by intros [= <- <-]. }
    destruct (code c =? 34)%N.
    { destruct (parse_string_body r) as [[[b|] rest']|]; cbn; [| |done];
        by intros [= <- <-]. }
    apply parse_literal_exact.
  - intros l rest. rewrite parse_elements_S.
    destruct (parse_value f s) as [[v r]|] eqn:Ev; cbn; [|done].
    apply IHv in Ev.
    destruct (skip_ws r) as [|c r']; [done|].
    destruct (code c =? 44)%N.
    { destruct (parse_elements f r') as [[l' rest']|] eqn:E; cbn; [|done].
      intros [= <- <-]. constructor; [done|]. by eapply IHe. }
    destruct (code c =? 93)%N; [|done].
    intros [= <- <-]. by constructor.
  - intros l rest. rewrite parse_members_S.
    destruct (skip_ws s) as [|q r0]; [done|].
    destruct (code q =? 34)%N; [|done].
    destruct (parse_string_body r0) as [[k r1]|]; cbn; [|done].
    destruct (skip_ws r1) as [|colon r2]; [done|].
    destruct (code colon =? 58)%N; [|done].
    destruct (parse_value f r2) as [[v r3]|] eqn:Ev; cbn; [|done].
    apply IHv in Ev.
    destruct (skip_ws r3) as [|c r4]; [done|].
    destruct (code c =? 44)%N.
    { destruct (parse_members f r4) as [[l' rest']|] eqn:E; cbn; [|done].
      destruct k as [k|], l' as [l'|]; cbn; try done.
      intros [= <- <-]. constructor; [done|]. by eapply IHm. }
    destruct (code c =? 125)%N; [|done].
    destruct k as [k|]; cbn; [|done].
    intros [= <- <-]. by constructor.
Qed.

Lemma parse_exact (s : string) (j : json) : parse s = Ok j -> exact_json j.
Proof.
  unfold parse.
  destruct (parse_value _ s) as [[v rest]|] eqn:E; cbn; [|done].
  destruct (skip_ws rest); [|done]. intros [= <-].
  by eapply (proj1 (parse_exact_all _)).
Qed.

Lemma as_number_array_numeric (j : json) (a : list jsval) :
  exact_json j -> as_number_array j = Ok a -> numeric a.
Proof.
  unfold as_number_array. destruct j as [| | | |l| |]; try done.
  rewrite exact_json_arr. intros Hl.
  destruct (as_numbers l) as [a'|] eqn:E; [|done]. intros [= <-].
  revert a' E. induction Hl as [|x l Hx Hl IH]; intros a' E; cbn in E.
  - injection E as <-. by exists [].
  - destruct x as [| |z| | | |]; try done.
    destruct (as_numbers l) as [a0|]; [|done]. cbn in E. injection E as <-.
    destruct (IH a0 eq_refl) as (zs & -> & Hzs).
    exists (z :: zs). split; [done|]. by constructor.
Qed.

Lemma views_of_json_numeric (js : list json)
    (vs : list (string * list jsval * string)) :
  Forall exact_json js -> views_of_json js = Ok vs ->
  Forall (fun v => numeric v.1.2) vs.
Proof.
  intros Hjs. revert vs. induction Hjs as [|j js Hj Hjs IH]; intros vs; cbn.
  - by intros [= <-].
  - destruct (view_of_json j) as [[[d a] u]|] eqn:Ev; cbn; [|done].
    destruct (views_of_json js) as [vs'|]; cbn; [|done].
    intros [= <-]. constructor; [|by apply IH]. cbn.
    unfold view_of_json in Ev.
    repeat (case_match; try discriminate). subst.
    destruct (as_number_array _) as [a'|] eqn:Ea; cbn in Ev; [|done].
    injection Ev as <- <- <-.
    refine (as_number_array_numeric _ _ _ Ea).
    apply exact_json_obj in Hj.
    inversion Hj as [|? ? _ Hj']. by inversion Hj'.
Qed.

Lemma stored_history_numeric (sto : Storage)
    (vs : list (string * list jsval * string)) :
  stored_history sto = Ok vs -> Forall (fun v => numeric v.1.2) vs.
Proof.
  unfold stored_history. destruct (truthy _); [|by intros [= <-]].
  destruct (parse _) as [j|] eqn:E; cbn; [|done].
  apply parse_exact in E. destruct j as [| | | |l| |]; try done.
  apply views_of_json_numeric. by apply exact_json_arr.
Qed.

Lemma views_of_snapshot_json (h : Heap) (l : list Snapshot.t) :
  numeric_history h l ->
  views_of_json (map (snapshot_json h) l) = Ok (map (snapshot_view h) l).
Proof.
  induction 1 as [|s l (zs & Hd & Hzs) _ IH]; [done|].
  cbn [map views_of_json]. rewrite IH.
  rewrite (snapshot_json_numeric h s zs Hd). cbn.
  rewrite as_numbers_map. cbn. unfold snapshot_view. by rewrite Hd.
Qed.

(** The history [saveSnapshot] writes reads back snapshot for snapshot. *)
Lemma stored_history_written (h : Heap) (l : list Snapshot.t)
    (sto : Storage) :
  numeric_history h l ->
  getItem needsPyramidHistory sto = Some (stringify_history h l) ->
  stored_history sto = Ok (map (snapshot_view h) l).
Proof.
  intros Hl Hsto. unfold stored_history. rewrite Hsto.
  change (truthy (Some (stringify_history h l))) with true.
  cbn [from_option id]. rewrite parse_stringify_history by done.
  cbn [mbind result_bind]. by apply views_of_snapshot_json.
Qed.

End Views.

(** ** The storage holds the page *)

Lemma stored_history_ext (sto sto' : Storage) :
  getItem needsPyramidHistory sto' = getItem needsPyramidHistory sto ->
  stored_history sto' = stored_history sto.
Proof. unfold stored_history. by intros ->. Qed.

Lemma load_userName_ext (sto sto' : Storage) :
  getItem needsPyramidUserName sto' = getItem needsPyramidUserName sto ->
  load_userName sto' = load_userName sto.
Proof. unfold load_userName. by intros ->. Qed.

Lemma load_userName_written (sto : Storage) (s : string) :
  getItem needsPyramidUserName sto = Some s ->
  load_userName sto = if decide (s = "") then None else Some s.
Proof. unfold load_userName. intros ->. by destruct s. Qed.

Lemma snapshot_view_app (h new : Heap) (l : list Snapshot.t) :
  Forall (fun s => (Snapshot.values s < length h)%nat) l ->
  map (snapshot_view (h ++ new)) l = map (snapshot_view h) l.
Proof.
  induction 1 as [|s l Hs _ IH]; [done|]. cbn. rewrite IH. f_equal.
  unfold snapshot_view, deref. by rewrite lookup_app_l.
Qed.

Lemma numeric_history_views (h : Heap) (l : list Snapshot.t)
    (sto : Storage) :
  stored_history sto = Ok (map (snapshot_view h) l) -> numeric_history h l.
Proof.
  intros H. apply stored_history_numeric in H.
  unfold numeric_history. rewrite Forall_map in H. exact H.
Qed.

Lemma commit_persisted (prev : State) (h : Heap) (sto : Storage)
    (u : Updates) :
  let next := apply_updates u prev in
  (levelValues next < length h)%nat ->
  Forall (fun s => (Snapshot.values s < length h)%nat) (history next) ->
  numeric (deref h (levelValues next)) ->
  (levelValues next = levelValues prev ->
   getItem needsPyramidValues sto
     = Some (JSON.stringify_array (deref h (levelValues prev)))) ->
  stored_history sto = Ok (map (snapshot_view h) (history next)) ->
  (userName next = userName prev ->
   load_userName sto
     = if decide (userName next = "") then None else Some (userName next)) ->
  persisted (commit prev h sto u).
Proof.
  intros next Hwf Hhist Hnum Hv Hh Hn.
  split; [done|]. split; [done|]. split; [done|].
  split; [by apply commit_values_in_sync|]. split.
  - unfold commit. cbn [heap storage state].
    rewrite (stored_history_ext sto); [done|]. apply run_effects_history.
  - unfold commit. cbn [heap storage state]. fold next.
    pose proof (run_effects_userName prev next h sto) as E.
    case_decide as En.
    + rewrite (load_userName_ext sto) by done. by apply Hn.
    + by apply load_userName_written.
Qed.

Lemma mount_persisted (sto : Storage) (w : World) :
  mount sto = Ok w -> persisted w.
Proof.
  intros Hm. pose proof (mount_storage sto w Hm) as [Hv Hn].
  pose proof (mount_well_formed sto w Hm) as Hwf.
  pose proof (mount_ratings sto w Hm) as Hr.
  apply mount_Ok in Hm as (lv & hist & h1 & h2 & Hlv & Hh & ->).
  pose proof (load_history_stored h1 sto) as Hs.
  destruct (stored_history sto) as [vs|e] eqn:Es; [|by rewrite Hs in Hh].
  destruct Hs as (o & new & Hh' & Hviews & Hlocs).
  rewrite Hh' in Hh. injection Hh as <- <-.
  split; [done|]. split; [done|]. split.
  { destruct Hr as [[_ ->]|(j & _ & Hp & Ha)].
    - apply rating_numeric, default_ratings_vector.
    - apply (as_number_array_numeric j); [|done]. by apply parse_exact in Hp. }
  split; [done|]. split.
  - unfold commit. cbn [heap storage state].
    rewrite (stored_history_ext sto), Es; [by rewrite <- Hviews|].
    rewrite run_effects_history. unfold persist_userName, persist_levelValues.
    by rewrite !getItem_setItem, !decide_False.
  - by apply load_userName_written.
Qed.

Lemma step_persisted (w : World) (e : Event) :
  invariant w -> persisted w -> ui_event e -> persisted (step w e).
Proof.
  intros (Hr & _ & Hsel) (Hwf & Hlocs & Hnum & Hv & Hh & Hn) He.
  pose proof (ratings_lookup w Hr) as Hl. unfold well_formed in Hwf.
  assert (Hgrow : forall new,
    Forall (fun s => (Snapshot.values s < length (heap w ++ new))%nat)
      (history (state w))).
  { intros new. eapply Forall_impl; [exact Hlocs|].
    intros s Hs. cbn in Hs. rewrite length_app. lia. }
  assert (Hviews : forall new,
    stored_history (storage w)
    = Ok (map (snapshot_view (heap w ++ new)) (history (state w)))).
  { intros new. by rewrite snapshot_view_app. }
  assert (Hsame : forall new,
    deref (heap w ++ new) (levelValues (state w)) = ratings w).
  { intros new. unfold deref. by rewrite (lookup_app_l_Some _ _ _ _ Hl). }
  assert (Hquiet : forall u,
    setLevelValues u = None -> setHistory u = None -> setUserName u = None ->
    persisted (commit (state w) (heap w) (storage w) u)).
  { intros u E1 E2 E3. apply commit_persisted; cbn; rewrite ?E1, ?E2, ?E3;
      cbn; done. }
  assert (Hslider : forall i v, (i < length LEVELS)%nat -> 0 <= v <= 100 ->
    persisted (commit (state w)
      (heap w ++ [array_assign (ratings w) i (first [Num v])]) (storage w)
      (mkUpdates (Some (length (heap w))) None None None None))).
  { intros i v Hi Hv'. apply commit_persisted; cbn.
    - rewrite length_app. cbn. lia.
    - apply Hgrow.
    - rewrite deref_snoc. apply rating_numeric.
      by apply rating_vector_assign.
    - lia.
    - apply Hviews.
    - done. }
  unfold step, handle.
  destruct e as [i v|v|t|now|[]| |i|]; cbn [ui_event] in He.
  - rewrite handleSliderChange_eq. cbv beta iota zeta.
    destruct He. by apply Hslider.
  - destruct (selectedLevel (state w)) as [i|] eqn:Ei.
    + rewrite handleSliderChange_eq. cbv beta iota zeta.
      apply Hslider; [by apply Hsel|done].
    + by apply Hquiet.
  - apply commit_persisted; cbn; [done..|]. intros ->. exact Hn.
  - destruct (save_disabled (state w)); [by apply Hquiet|].
    unfold saveSnapshot. cbn [alloc]. apply commit_persisted; cbn.
    + rewrite length_app. cbn. lia.
    + apply Forall_app. split; [apply Hgrow|].
      constructor; [|done]. cbn. rewrite length_app. cbn. lia.
    + by rewrite Hsame.
    + intros _. rewrite getItem_setItem, decide_False by done.
      by rewrite Hsame.
    + apply stored_history_written; [|by rewrite getItem_setItem, decide_True].
      apply Forall_app. split.
      * apply (numeric_history_views _ _ (storage w)). apply Hviews.
      * constructor; [|done]. cbn. by rewrite deref_snoc.
    + intros _. rewrite (load_userName_ext (storage w)); [done|].
      by rewrite getItem_setItem, decide_False.
  - unfold resetData. cbn [alloc]. apply commit_persisted; cbn.
    + rewrite length_app. cbn. lia.
    + done.
    + rewrite deref_snoc. apply rating_numeric, default_ratings_vector.
    + lia.
    + unfold stored_history. rewrite !getItem_removeItem.
      by rewrite decide_False, decide_True.
    + intros _. unfold load_userName. rewrite !getItem_removeItem.
      by rewrite decide_True.
  - by apply Hquiet.
  - by apply Hquiet.
  - by apply Hquiet.
  - by apply Hquiet.
Qed.

Lemma reachable_persisted (sto0 : Storage) (w : World) :
  stored_vector_ok sto0 -> reachable sto0 w -> persisted w.
Proof.
  intros Hs Hr. pose proof Hr as Hr'.
  induction Hr as [w Hm|w e Hr IH He|w w' _ IH Hm].
  - by eapply mount_persisted.
  - apply step_persisted; [|by apply IH|done].
    by eapply reachable_invariant.
  - by eapply mount_persisted.
Qed.

(** Loading the page again restores it: the mount completes and shows the
    same rating vector, the same snapshots and the same user name. *)
Lemma reload_restores (w : World) :
  persisted w ->
  exists w',
    mount (storage w) = Ok w'
    /\ ratings w' = ratings w
    /\ map (snapshot_view (heap w')) (history (state w'))
       = map (snapshot_view (heap w)) (history (state w))
    /\ userName (state w') = userName (state w).
Proof.
  intros (Hwf & Hlocs & Hnum & Hv & Hh & Hn).
  unfold mount, load. cbn [alloc length].
  rewrite (load_levelValues_written (ratings w)) by done.
  cbn [mbind result_bind].
  match goal with
  | |- context [load_history ?h _] =>
      pose proof (load_history_stored h (storage w)) as Hs
  end.
  rewrite Hh in Hs. destruct Hs as (o & new & -> & Hviews & _).
  cbn [mbind result_bind]. eexists. split; [reflexivity|].
  split; [reflexivity|]. split; [exact Hviews|].
  cbn. rewrite Hn. by case_decide.
Qed.

(** Every page reached from a sound storage survives a reload. *)
Corollary reachable_reload (sto0 : Storage) (w : World) :
  stored_vector_ok sto0 -> reachable sto0 w ->
  exists w',
    mount (storage w) = Ok w'
    /\ ratings w' = ratings w
    /\ map (snapshot_view (heap w')) (history (state w'))
       = map (snapshot_view (heap w)) (history (state w))
    /\ userName (state w') = userName (state w).
Proof.
  intros Hs Hr. apply reload_restores. by eapply reachable_persisted.
Qed.

(** ** What a mount installs *)

Lemma mount_history_key (sto : Storage) (w : World) :
  mount sto = Ok w ->
  getItem needsPyramidHistory (storage w) = getItem needsPyramidHistory sto.
Proof.
  intros Hm. apply mount_Ok in Hm as (lv & hist & h1 & h2 & _ & _ & ->).
  unfold commit. cbn [storage]. rewrite run_effects_history.
  unfold persist_userName, persist_levelValues.
  by rewrite !getItem_setItem, !decide_False.
Qed.

Lemma mount_history (sto : Storage) (w : World) :
  mount sto = Ok w ->
  stored_history sto
  = Ok (map (snapshot_view (heap w)) (history (state w))).
Proof.
  intros Hm. pose proof (mount_persisted sto w Hm) as (_ & _ & _ & _ & Hh & _).
  rewrite <- Hh. symmetry. apply stored_history_ext.
  by apply mount_history_key.
Qed.

Lemma mount_userName (sto : Storage) (w : World) :
  mount sto = Ok w ->
  userName (state w) = default "" (load_userName sto).
Proof.
  intros Hm. by apply mount_Ok in Hm as (lv & hist & h1 & h2 & _ & _ & ->).
Qed.

(** An exception in the loader ends the mount. *)
Lemma mount_throws_values (sto : Storage) (e : error) :
  truthy (getItem needsPyramidValues sto) = true ->
  JSON.parse (default "" (getItem needsPyramidValues sto)) = Err e ->
  mount sto = Err e.
Proof.
  intros Ht Hp. unfold mount, load, load_levelValues. cbn [alloc].
  by rewrite Ht, Hp.
Qed.

Lemma mount_throws_history (sto : Storage) (e : error) :
  truthy (getItem needsPyramidValues sto) = false
  \/ (exists j a,
        JSON.parse (default "" (getItem needsPyramidValues sto)) = Ok j
        /\ as_number_array j = Ok a) ->
  truthy (getItem needsPyramidHistory sto) = true ->
  JSON.parse (default "" (getItem needsPyramidHistory sto)) = Err e ->
  mount sto = Err e.
Proof.
  intros Hv Ht Hp. unfold mount, load, load_levelValues, load_history.
  cbn [alloc]. rewrite Ht, Hp.
  destruct (truthy (getItem needsPyramidValues sto)); [|done].
  destruct Hv as [|(j & a & -> & Ha)]; [done|]. cbn. by rewrite Ha.
Qed.

(** A stored history that is not JSON keeps the mount from completing,
    whatever the rating vector key holds. *)
Lemma mount_needs_history (sto : Storage) (w : World) :
  truthy (getItem needsPyramidHistory sto) = true ->
  (forall j, JSON.parse (default "" (getItem needsPyramidHistory sto))
             <> Ok j) ->
  mount sto <> Ok w.
Proof.
  intros Ht Hp Hm. apply mount_Ok in Hm as (lv & hist & h1 & h2 & _ & Hh & _).
  unfold load_history in Hh. rewrite Ht in Hh.
  destruct (JSON.parse _) as [j|e]; [by destruct (Hp j)|done].
Qed.

(** The mount completes when what is stored can be read. *)
Lemma mount_completes (sto : Storage) :
  truthy (getItem needsPyramidValues sto) = false
  \/ (exists j a,
        JSON.parse (default "" (getItem needsPyramidValues sto)) = Ok j
        /\ as_number_array j = Ok a) ->
  (exists vs, stored_history sto = Ok vs) ->
  exists w, mount sto = Ok w.
Proof.
  intros Hv [vs Hh]. unfold mount, load. cbn [alloc length app].
  assert (exists lv h1,
    load_levelValues [map (fun _ => Num 50) LEVELS] sto = Ok (lv, h1))
    as (lv & h1 & ->).
  { unfold load_levelValues.
    destruct (truthy (getItem needsPyramidValues sto)); [|by eexists _, _].
    destruct Hv as [|(j & a & -> & Ha)]; [done|]. cbn. rewrite Ha.
    by eexists _, _. }
  cbn [mbind result_bind].
  pose proof (load_history_stored h1 sto) as Hs. rewrite Hh in Hs.
  destruct Hs as (o & new & -> & _). cbn [mbind result_bind]. by eexists.
Qed.

(** C7 as stated fails: a stored value is not loaded whatever the others
    hold.  With the text [[1,2] under the rating vector key the loader
    throws before it reaches the stored name. *)
Lemma bad_vector_blocks_name :
  ~ (forall sto s,
       getItem needsPyramidUserName sto = Some s ->
       exists w, mount sto = Ok w /\ userName (state w) = s).
Proof.
  intros H.
  pose (sto := setItem needsPyramidValues "[1,2"
                 (setItem needsPyramidUserName "Alice" ∅) : Storage).
  destruct (H sto "Alice" eq_refl) as (w & Hm & _).
  vm_compute in Hm. discriminate.
Qed.

(** Each loader on a key that holds a value. *)
Lemma load_levelValues_present (h : Heap) (sto : Storage) (j : JSON.json)
    (a : list jsval) :
  truthy (getItem needsPyramidValues sto) = true ->
  JSON.parse (default "" (getItem needsPyramidValues sto)) = Ok j ->
  as_number_array j = Ok a ->
  load_levelValues h sto = Ok (Some (length h), h ++ [a]).
Proof.
  intros Ht Hp Ha. unfold load_levelValues. rewrite Ht, Hp. cbn.
  by rewrite Ha.
Qed.

Lemma load_history_present (h : Heap) (sto : Storage)
    (vs : list (string * list jsval * string)) :
  truthy (getItem needsPyramidHistory sto) = true ->
  stored_history sto = Ok vs ->
  exists ss new,
    load_history h sto = Ok (Some ss, h ++ new)
    /\ map (snapshot_view (h ++ new)) ss = vs.
Proof.
  intros Ht Hs. pose proof (load_history_stored h sto) as H.
  rewrite Hs in H. destruct H as (o & new & Hl & Hv & _).
  destruct o as [ss|]; [by exists ss, new|].
  unfold load_history in Hl. rewrite Ht in Hl.
  destruct (JSON.parse _) as [j|]; cbn in Hl; [|done].
  by destruct (as_history h j) as [[l h1]|].
Qed.

Lemma load_userName_present (sto : Storage) (s : string) :
  getItem needsPyramidUserName sto = Some s -> s <> "" ->
  load_userName sto = Some s.
Proof. unfold load_userName. intros -> Hs. by destruct s. Qed.

(** C7, amended.  The loader takes the three stored values one after the
    other.  Each read, taken on its own, depends on its own key only: a key
    that is absent queues no update and raises nothing, and a key that
    holds a value queues that value (the array of numbers the stored text
    denotes, the stored snapshots one by one, the stored name), whatever
    the other two keys hold.  After a mount that completes, each piece of
    state is what its own key holds, and a piece whose key is absent has
    its default (six times 50, no snapshot, the empty name).  The mount
    completes when the stored rating vector and history can be read, in
    particular when nothing is stored.  It does not complete when one of
    the two is not JSON: [JSON.parse] throws, and then none of the stored
    values is installed, so the three are not loaded independently of one
    another's failure. *)
Theorem mount_loads_each_key (sto : Storage) :
  (* the three reads, each on its own: an absent key *)
  (getItem needsPyramidValues sto = None ->
     forall h, load_levelValues h sto = Ok (None, h))
  /\ (getItem needsPyramidHistory sto = None ->
       forall h, load_history h sto = Ok (None, h))
  /\ (getItem needsPyramidUserName sto = None -> load_userName sto = None)
  (* the three reads, each on its own: a key that holds a value *)
  /\ (forall h j a,
       truthy (getItem needsPyramidValues sto) = true ->
       JSON.parse (default "" (getItem needsPyramidValues sto)) = Ok j ->
       as_number_array j = Ok a ->
       load_levelValues h sto = Ok (Some (length h), h ++ [a]))
  /\ (forall h vs,
       truthy (getItem needsPyramidHistory sto) = true ->
       stored_history sto = Ok vs ->
       exists ss new,
         load_history h sto = Ok (Some ss, h ++ new)
         /\ map (snapshot_view (h ++ new)) ss = vs)
  /\ (forall s, getItem needsPyramidUserName sto = Some s -> s <> "" ->
       load_userName sto = Some s)
  (* the page after a mount that completes *)
  /\ (forall w, mount sto = Ok w ->
       (getItem needsPyramidValues sto = None ->
          ratings w = [Num 50; Num 50; Num 50; Num 50; Num 50; Num 50])
       /\ (getItem needsPyramidHistory sto = None -> history (state w) = [])
       /\ (getItem needsPyramidUserName sto = None ->
            userName (state w) = "")
       /\ (truthy (getItem needsPyramidValues sto) = true ->
            exists j,
              JSON.parse (default "" (getItem needsPyramidValues sto)) = Ok j
              /\ as_number_array j = Ok (ratings w))
       /\ stored_history sto
           = Ok (map (snapshot_view (heap w)) (history (state w)))
       /\ (forall s, getItem needsPyramidUserName sto = Some s ->
            userName (state w) = s))
  (* when the mount completes *)
  /\ (truthy (getItem needsPyramidValues sto) = false
       \/ (exists j a,
             JSON.parse (default "" (getItem needsPyramidValues sto)) = Ok j
             /\ as_number_array j = Ok a) ->
      (exists vs, stored_history sto = Ok vs) ->
      exists w, mount sto = Ok w)
  /\ (getItem needsPyramidValues sto = None ->
       getItem needsPyramidHistory sto = None ->
       exists w, mount sto = Ok w)
  (* when it does not *)
  /\ (truthy (getItem needsPyramidValues sto) = true ->
      (forall j, JSON.parse (default "" (getItem needsPyramidValues sto))
                 <> Ok j) ->
      mount sto = Err SyntaxError)
  /\ (truthy (getItem needsPyramidHistory sto) = true ->
      (forall j, JSON.parse (default "" (getItem needsPyramidHistory sto))
                 <> Ok j) ->
      forall w, mount sto <> Ok w).
Proof.
  split; [intros H h; by apply load_levelValues_absent|].
  split; [intros H h; by apply load_history_absent|].
  split; [apply load_userName_absent|].
  split; [intros h j a; apply load_levelValues_present|].
  split; [intros h vs; apply load_history_present|].
  split; [apply load_userName_present|].
  split; [|split; [apply mount_completes|split; [apply mount_nothing_stored|]]].
  - intros w H. repeat split.
    + intros Habs. apply mount_ratings in H as [[_ ->]|(j & Ht & _)]; [done|].
      by rewrite Habs in Ht.
    + intros Habs. apply mount_Ok in H as (lv & hist & h1 & h2 & _ & Hh & ->).
      apply load_history_cases in Hh as [_ Hnone].
      rewrite Hnone by (by apply truthy_absent). reflexivity.
    + intros Habs. rewrite (mount_userName sto w H).
      by rewrite load_userName_absent.
    + intros Ht. apply mount_ratings in H as [[Hf _]|(j & _ & Hp & Ha)];
        [by rewrite Ht in Hf|]. by exists j.
    + by apply mount_history.
    + intros s Hs. rewrite (mount_userName sto w H).
      unfold load_userName. rewrite Hs. by destruct s.
  - split.
    + intros Ht Hp. apply mount_throws_values; [done|].
      by apply parse_not_json.
    + intros Ht Hp w. by apply mount_needs_history.
Qed.

Lemma mount_loads_each_key_witness :
  let sto : Storage :=
    setItem needsPyramidValues "[7, 8e1]"
      (setItem needsPyramidUserName "Bo" ∅) in
  getItem needsPyramidHistory sto = None
  /\ exists w, mount sto = Ok w
       /\ ratings w = [Num 7; Num 80]
       /\ history (state w) = []
       /\ userName (state w) = "Bo".
Proof.
  intros sto.
  assert (Hh : getItem needsPyramidHistory sto = None) by reflexivity.
  split; [exact Hh|].
  destruct (mount_loads_each_key sto)
    as (_ & _ & _ & _ & _ & _ & Hm & Hc & _).
  destruct Hc as [w Hw].
  { right. eexists _, _. split; reflexivity. }
  { eexists. reflexivity. }
  exists w. split; [exact Hw|].
  destruct (Hm w Hw) as (_ & H2 & _ & H4 & _ & H6).
  split; [|split; [exact (H2 Hh)|exact (H6 "Bo" eq_refl)]].
  destruct (H4 eq_refl) as (j & Hp & Ha).
  vm_compute in Hp. injection Hp as <-. vm_compute in Ha. by injection Ha.
Defined.

(** * Further properties of the handlers and of the view *)

Example ex_pyramidData :
  map Band.width (pyramidData first_visit) = replicate 6 (Num 50)
  /\ map Band.content (pyramidData first_visit) = LEVELS.
Proof. split; reflexivity. Qed.

(** ** Slider moves *)

Lemma array_assign_twice (a : list jsval) (i : nat) (v v' : jsval) :
  array_assign (array_assign a i v) i v' = array_assign a i v'.
Proof.
  unfold array_assign at 2 3. case_decide as Hi.
  - unfold array_assign. rewrite length_insert, decide_True by done.
    by rewrite list_insert_insert_eq.
  - unfold array_assign. rewrite !length_app, length_replicate. cbn.
    rewrite decide_True by lia.
    rewrite insert_app_r_alt by lia.
    rewrite insert_app_r_alt by (rewrite length_replicate; lia).
    rewrite length_replicate.
    by replace (i - length a - (i - length a))%nat with 0%nat by lia.
Qed.

Lemma array_assign_inside (a : list jsval) (i : nat) (v : jsval) :
  (i < length a)%nat -> array_assign a i v = <[i := v]> a.
Proof. intros Hi. unfold array_assign. by rewrite decide_True. Qed.

(** X1.  Neither the loader nor the store checks the length of the rating
    vector: on a page whose vector is shorter than the six levels (one
    mounted from a short stored array), moving a slider whose index is at
    or past the end of the vector makes the vector grow to [index + 1]
    entries; the old entries stay, the new last entry is the value, and the
    entries in between read [undefined]. *)
Theorem slider_index_past_end_grows (w : World) (i : nat) (v : Z) :
  ui_event (SliderChange i v) ->
  (length (ratings w) <= i)%nat ->
  let w' := step w (SliderChange i v) in
  length (ratings w') = S i
  /\ ratings w' !! i = Some (Num v)
  /\ (forall j, (j < length (ratings w))%nat ->
        ratings w' !! j = ratings w !! j)
  /\ (forall j, (length (ratings w) <= j < i)%nat ->
        ratings w' !! j = Some Undefined).
Proof.
  intros _ Hi w'. subst w'. rewrite ratings_slider.
  split; [|split; [apply array_assign_lookup|split]].
  - unfold array_assign. rewrite decide_False by lia.
    rewrite !length_app, length_replicate. cbn. lia.
  - intros j Hj. unfold array_assign. rewrite decide_False by lia.
    by rewrite lookup_app_l.
  - intros j Hj. unfold array_assign. rewrite decide_False by lia.
    rewrite lookup_app_r by lia. rewrite lookup_app_l
      by (rewrite length_replicate; lia).
    apply lookup_replicate_2. lia.
Qed.

Lemma slider_index_past_end_grows_witness :
  exists w,
    mount (setItem needsPyramidValues "[1,2,3]" ∅) = Ok w
    /\ ui_event (SliderChange 5 30)
    /\ (length (ratings w) <= 5)%nat
    /\ ratings (step w (SliderChange 5 30))
       = [Num 1; Num 2; Num 3; Undefined; Undefined; Num 30]
    /\ length (ratings (step w (SliderChange 5 30))) = 6%nat.
Proof.
  eexists. split; [reflexivity|].
  match goal with |- _ /\ _ /\ _ /\ length (ratings (step ?w0 _)) = _ =>
    set (w := w0) end.
  assert (He : ui_event (SliderChange 5 30)) by (cbn; lia).
  assert (H : (length (ratings w) <= 5)%nat) by (vm_compute; lia).
  split; [exact He|]. split; [exact H|]. split; [reflexivity|].
  exact (proj1 (slider_index_past_end_grows w 5 30 He H)).
Defined.

(** X2.  Two moves of the same slider in a row leave the rating vector
    that the second move alone would have left. *)
Theorem slider_last_move_wins (w : World) (i : nat) (v v' : Z) :
  ratings (run w [SliderChange i v; SliderChange i v'])
  = ratings (step w (SliderChange i v')).
Proof.
  cbn [run fold_left]. rewrite !ratings_slider. apply array_assign_twice.
Qed.

(** X3.  Moves of two different sliders, both inside the rating vector,
    can be made in either order: the rating vector is the same. *)
Theorem slider_moves_commute (w : World) (i j : nat) (v v' : Z) :
  i <> j -> (i < length (ratings w))%nat -> (j < length (ratings w))%nat ->
  ratings (run w [SliderChange i v; SliderChange j v'])
  = ratings (run w [SliderChange j v'; SliderChange i v]).
Proof.
  intros Hij Hi Hj. cbn [run fold_left]. rewrite !ratings_slider.
  rewrite (array_assign_inside (ratings w) i) by done.
  rewrite (array_assign_inside (ratings w) j) by done.
  rewrite !array_assign_inside by (by rewrite length_insert).
  by apply list_insert_insert_ne.
Qed.

Lemma slider_moves_commute_witness :
  (1 <> 4)%nat
  /\ (1 < length (ratings first_visit))%nat
  /\ (4 < length (ratings first_visit))%nat
  /\ ratings (run first_visit [SliderChange 1 10; SliderChange 4 90])
     = ratings (run first_visit [SliderChange 4 90; SliderChange 1 10]).
Proof.
  assert (H0 : (1 <> 4)%nat) by lia.
  assert (H1 : (1 < length (ratings first_visit))%nat) by (cbn; lia).
  assert (H2 : (4 < length (ratings first_visit))%nat) by (cbn; lia).
  split; [exact H0|]. split; [exact H1|]. split; [exact H2|].
  exact (slider_moves_commute first_visit 1 4 10 90 H0 H1 H2).
Defined.

(** ** What each event writes, and what it leaves alone *)

Lemma run_effects_other (prev next : State) (h : Heap) (sto : Storage)
    (k : string) :
  k <> needsPyramidValues -> k <> needsPyramidUserName ->
  getItem k (run_effects prev next h sto) = getItem k sto.
Proof.
  intros Hv Hn. unfold run_effects, persist_userName, persist_levelValues.
  repeat case_decide; rewrite ?getItem_setItem; repeat case_decide;
    congruence.
Qed.

(** The page after an event, handler by handler. *)
Lemma step_cases (w : World) (e : Event) :
  (exists i v,
     (e = SliderChange i v
      \/ (e = DialogSliderChange v /\ selectedLevel (state w) = Some i))
     /\ step w e
        = commit (state w)
            (heap w ++ [array_assign (ratings w) i (Num v)]) (storage w)
            (mkUpdates (Some (length (heap w))) None None None None))
  \/ (exists t, e = NameInput t
        /\ step w e
           = commit (state w) (heap w) (storage w)
               (mkUpdates None None None None (Some t)))
  \/ (exists now, e = ClickSave now /\ save_disabled (state w) = false
        /\ step w e
           = (let '(h, sto, u) :=
                saveSnapshot (state w) (heap w) (storage w) now in
              commit (state w) h sto u))
  \/ (e = ClickReset true
        /\ step w e
           = (let '(h, sto, u) := resetData (heap w) (storage w) true in
              commit (state w) h sto u))
  \/ (exists u,
        setLevelValues u = None /\ setHistory u = None
        /\ setUserName u = None
        /\ (setSelectedLevel u <> None ->
            (exists i, e = SelectLevel i) \/ e = CloseDialog)
        /\ (setShowHistory u <> None -> e = ToggleHistory)
        /\ e <> ClickReset true
        /\ (forall i v, e <> SliderChange i v)
        /\ (forall t, e <> NameInput t)
        /\ step w e = commit (state w) (heap w) (storage w) u).
Proof.
  unfold step, handle.
  destruct e as [i v|v|t|now|[]| |i|].
  - left. exists i, v. split; [by left|]. by rewrite handleSliderChange_eq.
  - destruct (selectedLevel (state w)) as [i|] eqn:E.
    + left. exists i, v. split; [by right|]. by rewrite handleSliderChange_eq.
    + do 4 right. exists no_updates. cbn. repeat split; done.
  - right. left. by exists t.
  - destruct (save_disabled (state w)) eqn:E.
    + do 4 right. exists no_updates. cbn. repeat split; done.
    + do 2 right. left. by exists now.
  - do 3 right. left. done.
  - do 4 right. exists no_updates. cbn. repeat split; done.
  - do 4 right. eexists. cbn. repeat split; done.
  - do 4 right. eexists. cbn. repeat split; try done. intros _. left. by eexists.
  - do 4 right. eexists. cbn. repeat split; try done. intros _. by right.
Qed.

Lemma deref_app_copy (h : Heap) (l : loc) :
  deref (h ++ [deref h l]) l = deref h l.
Proof.
  unfold deref. destruct (h !! l) as [a|] eqn:E.
  - by rewrite (lookup_app_l_Some _ _ _ _ E).
  - apply lookup_ge_None in E. cbn.
    destruct (decide (l = length h)) as [->|Hne].
    + by rewrite list_lookup_middle.
    + rewrite lookup_ge_None_2; [done|]. rewrite length_app. cbn. lia.
Qed.

(** X4.  A slider move is written to the storage at once: on a page whose
    rating array exists and holds numbers, after a move of one of the six
    sliders to a value from 0 to 100 the rating vector key holds the text
    of the new vector. *)
Theorem slider_move_is_stored (w : World) (i : nat) (v : Z) :
  well_formed w -> numeric (ratings w) -> ui_event (SliderChange i v) ->
  getItem needsPyramidValues (storage (step w (SliderChange i v)))
  = Some (JSON.stringify_array (array_assign (ratings w) i (Num v))).
Proof.
  unfold well_formed. intros Hwf _ _.
  destruct (step_cases w (SliderChange i v))
    as [(i' & v' & [[= <- <-]|[[=] _]] & ->)|[(t & [=] & _)|
        [(now & [=] & _)|[([=] & _)|(u & _ & _ & _ & _ & _ & _ & H & _)]]]];
    [|by destruct (H i v)].
  unfold commit. cbn [storage]. rewrite run_effects_values.
  cbn. rewrite decide_False by lia. by rewrite deref_snoc.
Qed.

Lemma slider_move_is_stored_witness :
  well_formed first_visit
  /\ numeric (ratings first_visit)
  /\ ui_event (SliderChange 2 30)
  /\ getItem needsPyramidValues (storage (step first_visit (SliderChange 2 30)))
     = Some "[50,50,30,50,50,50]".
Proof.
  assert (H : well_formed first_visit) by (unfold well_formed; cbn; lia).
  assert (Hn : numeric (ratings first_visit))
    by apply rating_numeric, default_ratings_vector.
  assert (He : ui_event (SliderChange 2 30)) by (cbn; lia).
  split; [exact H|]. split; [exact Hn|]. split; [exact He|].
  exact (slider_move_is_stored first_visit 2 30 H Hn He).
Defined.

(** X5.  Typing in the name field sets the user name to the text typed,
    and a text that differs from the current name is written under the
    user name key; typing the name that is already there writes nothing.
    The rating vector and the history are not touched. *)
Theorem name_input_is_stored (w : World) (t : string) :
  let w' := step w (NameInput t) in
  userName (state w') = t
  /\ getItem needsPyramidUserName (storage w')
     = (if decide (t = userName (state w))
        then getItem needsPyramidUserName (storage w) else Some t)
  /\ ratings w' = ratings w
  /\ history (state w') = history (state w).
Proof.
  intros w'. subst w'. unfold step, handle, commit. cbn [storage state heap].
  rewrite run_effects_userName. cbn. repeat split.
Qed.

(** X6.  On a page whose rating vector and snapshots hold numbers, a save
    with a name that is not blank writes the whole new history under the
    history key, and leaves the rating vector, the user name and the other
    two keys as they are. *)
Theorem save_is_stored (w : World) (now : string) :
  ~ blank (userName (state w)) ->
  numeric (ratings w) ->
  numeric_history (heap w) (history (state w)) ->
  let w' := step w (ClickSave now) in
  getItem needsPyramidHistory (storage w')
    = Some (stringify_history (heap w') (history (state w')))
  /\ ratings w' = ratings w
  /\ userName (state w') = userName (state w)
  /\ getItem needsPyramidValues (storage w')
     = getItem needsPyramidValues (storage w)
  /\ getItem needsPyramidUserName (storage w')
     = getItem needsPyramidUserName (storage w).
Proof.
  intros Hb _ _ w'. subst w'. rewrite <- save_disabled_blank in Hb.
  unfold step, handle. destruct (save_disabled (state w)); [done|].
  unfold saveSnapshot. cbn [alloc]. unfold commit, ratings.
  cbn [storage state heap].
  rewrite run_effects_history, run_effects_values, run_effects_userName.
  cbn. rewrite !decide_True by done. rewrite !getItem_setItem.
  rewrite decide_True by done. rewrite !decide_False by done.
  repeat split. apply deref_app_copy.
Qed.

Lemma save_is_stored_witness :
  let w := run first_visit [NameInput "Al"; SliderChange 2 30] in
  ~ blank (userName (state w))
  /\ numeric (ratings w)
  /\ numeric_history (heap w) (history (state w))
  /\ getItem needsPyramidHistory
       (storage (step w (ClickSave "2024-05-01T10:00:00.000Z")))
     = Some (String "["
         (stringify_snapshot [[Num 50; Num 50; Num 30; Num 50; Num 50; Num 50]]
            (Snapshot.mk "2024-05-01T10:00:00.000Z" 0 "Al") +:+ "]"))
  /\ ratings (step w (ClickSave "2024-05-01T10:00:00.000Z")) = ratings w.
Proof.
  intros w.
  assert (H : ~ blank (userName (state w))).
  { cbn. intros [Hc _]. vm_compute in Hc. discriminate. }
  assert (Hn : numeric (ratings w)).
  { exists [50; 50; 30; 50; 50; 50]. split; [reflexivity|].
    repeat constructor; unfold JSON.exact, JSON.max_exact; lia. }
  assert (Hh : numeric_history (heap w) (history (state w))) by constructor.
  destruct (save_is_stored w "2024-05-01T10:00:00.000Z" H Hn Hh)
    as (H1 & H2 & _).
  split; [exact H|]. split; [exact Hn|]. split; [exact Hh|].
  split; [|exact H2].
  rewrite H1. vm_compute. reflexivity.
Defined.

(** X7.  Which event can change which piece of state: the selected level
    changes only when a band is clicked or the dialog is closed, the
    history panel only by its toggle, the user name only by typing or by a
    confirmed reset, the rating vector only by a slider or by a confirmed
    reset.  In particular a confirmed reset neither closes the dialog nor
    hides the history panel. *)
Theorem state_frame (w : World) (e : Event) :
  let w' := step w e in
  (selectedLevel (state w') <> selectedLevel (state w) ->
     (exists i, e = SelectLevel i) \/ e = CloseDialog)
  /\ (showHistory (state w') <> showHistory (state w) -> e = ToggleHistory)
  /\ (userName (state w') <> userName (state w) ->
       (exists t, e = NameInput t) \/ e = ClickReset true)
  /\ (ratings w' <> ratings w ->
       (exists i v, e = SliderChange i v)
       \/ (exists v, e = DialogSliderChange v)
       \/ e = ClickReset true).
Proof.
  intros w'. subst w'.
  destruct (step_cases w e)
    as [(i & v & He & ->)|[(t & -> & ->)|[(now & -> & Hd & ->)|
        [(-> & ->)|(u & E1 & E2 & E3 & Hs & Ht & _ & _ & _ & ->)]]]].
  - cbn. repeat split; try done. intros _.
    destruct He as [->|[-> _]]; [left|right; left]; by eauto.
  - cbn. repeat split; try done. intros _. left. by eauto.
  - unfold saveSnapshot. cbn [alloc]. unfold ratings. cbn.
    repeat split; try done. by rewrite deref_app_copy.
  - cbn. repeat split; try done; intros _; by auto.
  - unfold ratings. cbn. rewrite E1, E3. cbn. repeat split; try done.
    + intros H. apply Hs. by destruct (setSelectedLevel u).
    + intros H. apply Ht. by destruct (setShowHistory u).
Qed.

(** X8.  Which event can change which key of the storage: the history key
    changes only by a save or a confirmed reset, the user name key only by
    typing or a confirmed reset, the rating vector key only by a slider or
    a confirmed reset; and no event ever touches any other key of the
    storage. *)
Theorem storage_frame (w : World) (e : Event) :
  let w' := step w e in
  (forall k, k <> needsPyramidValues -> k <> needsPyramidHistory ->
     k <> needsPyramidUserName ->
     getItem k (storage w') = getItem k (storage w))
  /\ (getItem needsPyramidHistory (storage w')
      <> getItem needsPyramidHistory (storage w) ->
      (exists now, e = ClickSave now) \/ e = ClickReset true)
  /\ (getItem needsPyramidUserName (storage w')
      <> getItem needsPyramidUserName (storage w) ->
      (exists t, e = NameInput t) \/ e = ClickReset true)
  /\ (getItem needsPyramidValues (storage w')
      <> getItem needsPyramidValues (storage w) ->
      (exists i v, e = SliderChange i v)
      \/ (exists v, e = DialogSliderChange v)
      \/ e = ClickReset true).
Proof.
  intros w'. subst w'.
  destruct (step_cases w e)
    as [(i & v & He & ->)|[(t & -> & ->)|[(now & -> & Hd & ->)|
        [(-> & ->)|(u & E1 & E2 & E3 & _ & _ & _ & _ & _ & ->)]]]].
  - unfold commit. cbn [storage].
    rewrite run_effects_history, run_effects_userName. cbn.
    split; [intros k Hv _ Hn; by apply run_effects_other|].
    split; [done|]. split; [by rewrite decide_True|]. intros _.
    destruct He as [->|[-> _]]; [left|right; left]; by eauto.
  - unfold commit. cbn [storage].
    rewrite run_effects_history, run_effects_values. cbn.
    split; [intros k Hv _ Hn; by apply run_effects_other|].
    split; [done|]. split; [intros _; left; by eauto|].
    by rewrite decide_True.
  - unfold saveSnapshot. cbn [alloc]. unfold commit. cbn [storage].
    rewrite run_effects_values, run_effects_userName. cbn.
    rewrite !decide_True by done. rewrite !getItem_setItem.
    rewrite !decide_False by done.
    split.
    { intros k Hv Hh Hn. rewrite run_effects_other by done.
      rewrite getItem_setItem. by rewrite decide_False. }
    split; [intros _; left; by eauto|]. done.
  - split; [|repeat split; intros _; by auto].
    intros k Hv Hh Hn. cbn [resetData alloc]. unfold commit. cbn [storage].
    rewrite run_effects_other by done. rewrite !getItem_removeItem.
    by rewrite !decide_False.
  - unfold commit. cbn [storage].
    rewrite run_effects_history, run_effects_userName, run_effects_values.
    cbn. rewrite E1, E3. cbn. rewrite !decide_True by done.
    split; [intros k Hv _ Hn; by apply run_effects_other|]. done.
Qed.

(** X9.  Toggling the history panel twice gives back the page exactly. *)
Theorem toggle_history_twice (w : World) :
  step (step w ToggleHistory) ToggleHistory = w.
Proof.
  destruct w as [h sto [lv sel hist sh un]].
  unfold step, handle, commit, run_effects. cbn.
  rewrite !decide_True by done. by rewrite negb_involutive.
Qed.

Lemma dialog_slider_step (w : World) (i : nat) (v : Z) :
  selectedLevel (state w) = Some i ->
  step w (DialogSliderChange v) = step w (SliderChange i v).
Proof. intros H. unfold step, handle. by rewrite H. Qed.

Lemma slider_keeps_selection (w : World) (i : nat) (v : Z) :
  selectedLevel (state (step w (SliderChange i v)))
  = selectedLevel (state w).
Proof. unfold step, handle. by rewrite handleSliderChange_eq. Qed.

(** X10.  The slider of the dialog is bound to the same store as the
    slider of the list: clicking the band of level [i] and moving the
    slider of the dialog to [v] leaves the rating vector that moving
    slider [i] of the list to [v] leaves, and the dialog then shows [v]. *)
Theorem dialog_slider_is_list_slider (w : World) (i : nat) (v : Z) :
  let w' := run w [SelectLevel i; DialogSliderChange v] in
  ratings w' = ratings (step w (SliderChange i v))
  /\ dialog_value w' = Some (Num v)
  /\ slider_value w' i = Num v.
Proof.
  intros w'. subst w'. cbn [run fold_left].
  set (w1 := step w (SelectLevel i)).
  assert (Hs : selectedLevel (state w1) = Some i) by reflexivity.
  assert (Hr : ratings w1 = ratings w) by reflexivity.
  rewrite (dialog_slider_step w1 i v Hs).
  unfold dialog_value, slider_value.
  rewrite slider_keeps_selection, Hs, !ratings_slider, Hr. cbn.
  unfold read. by rewrite array_assign_lookup.
Qed.

(** ** Loading *)

(** X11.  The loader does not catch what [JSON.parse] throws: a stored
    rating vector that is not JSON text ends the mount with the syntax
    error, and so does a stored history that is not JSON text when the
    rating vector is absent, empty or loads. *)
Theorem mount_throws_on_bad_text (sto : Storage) :
  (truthy (getItem needsPyramidValues sto) = true ->
   (forall j, JSON.parse (default "" (getItem needsPyramidValues sto))
              <> Ok j) ->
   mount sto = Err SyntaxError)
  /\ (truthy (getItem needsPyramidValues sto) = false
      \/ (exists j a,
            JSON.parse (default "" (getItem needsPyramidValues sto)) = Ok j
            /\ as_number_array j = Ok a) ->
      truthy (getItem needsPyramidHistory sto) = true ->
      (forall j, JSON.parse (default "" (getItem needsPyramidHistory sto))
                 <> Ok j) ->
      mount sto = Err SyntaxError).
Proof.
  split.
  - intros Ht Hp. apply mount_throws_values; [done|].
    by apply parse_not_json.
  - intros Hv Ht Hp. apply mount_throws_history; [done..|].
    by apply parse_not_json.
Qed.

Lemma mount_throws_on_bad_text_witness :
  mount (setItem needsPyramidValues "[1.]" ∅) = Err SyntaxError
  /\ mount (setItem needsPyramidHistory "{oops"
              (setItem needsPyramidValues "[1e2,5]" ∅)) = Err SyntaxError.
Proof.
  split.
  - apply (proj1 (mount_throws_on_bad_text _)); [reflexivity|].
    intros j Hj. vm_compute in Hj. discriminate.
  - apply (proj2 (mount_throws_on_bad_text _)); [|reflexivity|].
    + right. eexists _, _. split; reflexivity.
    + intros j Hj. vm_compute in Hj. discriminate.
Defined.

(** X12.  An empty string under a key counts as no value: the guard
    [if (saved)] skips it, so [JSON.parse] is not called on it and nothing
    is thrown.  With the rating vector and the history absent or empty the
    mount completes with six times 50 and no snapshot, and with the user
    name absent or empty the name is empty. *)
Theorem mount_skips_empty_strings (sto : Storage) :
  truthy (getItem needsPyramidValues sto) = false ->
  truthy (getItem needsPyramidHistory sto) = false ->
  exists w,
    mount sto = Ok w
    /\ ratings w = [Num 50; Num 50; Num 50; Num 50; Num 50; Num 50]
    /\ history (state w) = []
    /\ (truthy (getItem needsPyramidUserName sto) = false ->
        userName (state w) = "").
Proof.
  intros Hv Hh. unfold mount, load, load_levelValues, load_history.
  cbn [alloc]. rewrite Hv, Hh. cbn [mbind result_bind].
  eexists. split; [reflexivity|]. split; [reflexivity|].
  split; [reflexivity|]. intros Hn. cbn. unfold load_userName.
  by rewrite Hn.
Qed.

Lemma mount_skips_empty_strings_witness :
  let sto : Storage :=
    setItem needsPyramidValues ""
      (setItem needsPyramidHistory "" (setItem needsPyramidUserName "" ∅)) in
  truthy (getItem needsPyramidValues sto) = false
  /\ truthy (getItem needsPyramidHistory sto) = false
  /\ exists w, mount sto = Ok w /\ history (state w) = [].
Proof.
  intros sto.
  assert (H1 : truthy (getItem needsPyramidValues sto) = false)
    by reflexivity.
  assert (H2 : truthy (getItem needsPyramidHistory sto) = false)
    by reflexivity.
  split; [exact H1|]. split; [exact H2|].
  destruct (mount_skips_empty_strings sto H1 H2) as (w & Hm & _ & Hh & _).
  exists w. split; [exact Hm|exact Hh].
Defined.

(** X13.  The loader does not validate what it installs.  When the text
    under the rating vector key denotes an array of integers, of whatever
    length and whatever values, and the stored history can be read, the
    mount completes, the rating vector is that array, the history is the
    stored snapshots one by one and in order, and the user name is the
    stored name. *)
Theorem mount_installs_stored (sto : Storage) (zs : list Z)
    (vs : list (string * list jsval * string)) :
  truthy (getItem needsPyramidValues sto) = true ->
  JSON.parse (default "" (getItem needsPyramidValues sto))
    = Ok (JSON.JArr (map JSON.JNum zs)) ->
  stored_history sto = Ok vs ->
  exists w,
    mount sto = Ok w
    /\ ratings w = map Num zs
    /\ map (snapshot_view (heap w)) (history (state w)) = vs
    /\ (forall s, getItem needsPyramidUserName sto = Some s ->
          userName (state w) = s).
Proof.
  intros Ht Hp Hh.
  assert (Ha : as_number_array (JSON.JArr (map JSON.JNum zs))
               = Ok (map Num zs)).
  { unfold as_number_array. by rewrite as_numbers_map. }
  destruct (mount_completes sto) as [w Hm].
  { right. by eexists _, _. }
  { by eexists. }
  exists w. split; [done|]. split; [|split].
  - pose proof (mount_ratings sto w Hm) as [[Hf _]|(j & _ & Hp' & Ha')];
      [by rewrite Ht in Hf|].
    rewrite Hp in Hp'. injection Hp' as <-. rewrite Ha in Ha'.
    by injection Ha'.
  - pose proof (mount_history sto w Hm) as Hh'. rewrite Hh in Hh'.
    by injection Hh'.
  - intros s Hs. rewrite (mount_userName sto w Hm).
    unfold load_userName. rewrite Hs. by destruct s.
Qed.

Lemma mount_installs_stored_witness :
  let sto : Storage :=
    setItem needsPyramidValues "[7, 800, -3, 1e2]"
      (setItem needsPyramidUserName "Bo" ∅) in
  truthy (getItem needsPyramidValues sto) = true
  /\ JSON.parse (default "" (getItem needsPyramidValues sto))
     = Ok (JSON.JArr (map JSON.JNum [7; 800; -3; 100]))
  /\ stored_history sto = Ok []
  /\ exists w, mount sto = Ok w
       /\ ratings w = [Num 7; Num 800; Num (-3); Num 100]
       /\ history (state w) = []
       /\ userName (state w) = "Bo".
Proof.
  intros sto.
  assert (H1 : truthy (getItem needsPyramidValues sto) = true)
    by reflexivity.
  assert (H2 : JSON.parse (default "" (getItem needsPyramidValues sto))
               = Ok (JSON.JArr (map JSON.JNum [7; 800; -3; 100])))
    by reflexivity.
  assert (H3 : stored_history sto = Ok []) by reflexivity.
  split; [exact H1|]. split; [exact H2|]. split; [exact H3|].
  destruct (mount_installs_stored sto _ _ H1 H2 H3) as (w & Hm & Hr & Hv & Hn).
  exists w. split; [exact Hm|]. split; [exact Hr|].
  split; [|exact (Hn "Bo" eq_refl)].
  by destruct (history (state w)).
Defined.

(** ** Reset and reload *)

Lemma reset_storage (w : World) :
  well_formed w ->
  let sto := storage (step w (ClickReset true)) in
  getItem needsPyramidValues sto
    = Some (JSON.stringify_array (map (fun _ => Num 50) LEVELS))
  /\ getItem needsPyramidHistory sto = None
  /\ truthy (getItem needsPyramidUserName sto) = false.
Proof.
  intros Hwf sto. subst sto. unfold well_formed in Hwf.
  unfold step, handle, resetData, commit. cbn [alloc storage state heap].
  rewrite run_effects_history, run_effects_values, run_effects_userName,
    !getItem_removeItem.
  cbn [apply_updates from_option id levelValues userName setLevelValues
       setUserName].
  rewrite deref_snoc. rewrite (decide_False (P := length _ = _)) by lia.
  split; [done|]. split; [by rewrite decide_False, decide_True|].
  case_decide; [|done]. by rewrite decide_True.
Qed.

(** X14.  A confirmed reset is durable: the page loaded from the storage
    it leaves shows six times 50, no snapshot and an empty name. *)
Theorem reset_then_reload_shows_defaults (w : World) :
  well_formed w ->
  exists w',
    mount (storage (step w (ClickReset true))) = Ok w'
    /\ ratings w' = [Num 50; Num 50; Num 50; Num 50; Num 50; Num 50]
    /\ history (state w') = []
    /\ userName (state w') = "".
Proof.
  intros Hwf. destruct (reset_storage w Hwf) as (Hv & Hh & Hn).
  unfold mount, load. cbn [alloc].
  rewrite (load_levelValues_written (map (fun _ => Num 50) LEVELS))
    by (try apply rating_numeric, default_ratings_vector; done).
  cbn [mbind result_bind]. rewrite load_history_absent by done.
  cbn [mbind result_bind]. eexists. split; [reflexivity|].
  split; [reflexivity|]. split; [reflexivity|].
  unfold commit.
  cbn [state apply_updates userName setUserName initial_state].
  unfold load_userName. by rewrite Hn.
Qed.

Lemma reset_then_reload_shows_defaults_witness :
  let w := run first_visit
             [SliderChange 2 30; NameInput "Al";
              ClickSave "2024-05-01T10:00:00.000Z"] in
  well_formed w
  /\ exists w', mount (storage (step w (ClickReset true))) = Ok w'
       /\ history (state w') = [] /\ userName (state w') = "".
Proof.
  intros w.
  assert (H : well_formed w) by (unfold well_formed; vm_compute; lia).
  split; [exact H|].
  destruct (reset_then_reload_shows_defaults w H) as (w' & Hm & _ & Hh & Hn).
  exists w'. split; [exact Hm|]. split; [exact Hh|exact Hn].
Defined.

(** X15.  On every page reached from a sound storage the storage mirrors
    the page: the rating vector key holds the text of the vector on
    screen, the history key reads back as the snapshots on screen, one by
    one, and the user name key loads as the name on screen. *)
Theorem storage_mirrors_page (sto0 : Storage) (w : World) :
  stored_vector_ok sto0 -> reachable sto0 w ->
  getItem needsPyramidValues (storage w)
    = Some (JSON.stringify_array (ratings w))
  /\ stored_history (storage w)
     = Ok (map (snapshot_view (heap w)) (history (state w)))
  /\ default "" (load_userName (storage w)) = userName (state w).
Proof.
  intros Hs Hr.
  destruct (reachable_persisted sto0 w Hs Hr) as (_ & _ & _ & Hv & Hh & Hn).
  split; [done|]. split; [done|]. rewrite Hn. by case_decide.
Qed.

Lemma storage_mirrors_page_witness :
  let w := run first_visit
             [SliderChange 2 30; NameInput "Al";
              ClickSave "2024-05-01T10:00:00.000Z"] in
  stored_vector_ok ∅ /\ reachable ∅ w
  /\ stored_history (storage w)
     = Ok [("2024-05-01T10:00:00.000Z",
            [Num 50; Num 50; Num 30; Num 50; Num 50; Num 50], "Al")].
Proof.
  intros w.
  assert (H1 : stored_vector_ok ∅).
  { intros j a Ht. vm_compute in Ht. discriminate. }
  assert (H2 : reachable ∅ w).
  { repeat (apply reach_step; [|cbn; try lia; exact I]).
    apply reach_mount. reflexivity. }
  split; [exact H1|]. split; [exact H2|].
  exact (proj1 (proj2 (storage_mirrors_page ∅ w H1 H2))).
Defined.

(** X16.  Every page reached from a sound storage survives a reload: the
    mount from its storage completes and shows the same rating vector, the
    same snapshots (dates, entries, names) in the same order, and the same
    user name, whatever characters the names contain. *)
Theorem reload_restores_page (sto0 : Storage) (w : World) :
  stored_vector_ok sto0 -> reachable sto0 w ->
  exists w',
    mount (storage w) = Ok w'
    /\ ratings w' = ratings w
    /\ map (snapshot_view (heap w')) (history (state w'))
       = map (snapshot_view (heap w)) (history (state w))
    /\ userName (state w') = userName (state w).
Proof.
  intros Hs Hr. apply reload_restores. by eapply reachable_persisted.
Qed.

Lemma reload_restores_page_witness :
  let w := run first_visit
             [SliderChange 2 30; NameInput (String dquote "Al");
              ClickSave "2024-05-01T10:00:00.000Z"; SliderChange 0 7] in
  stored_vector_ok ∅ /\ reachable ∅ w
  /\ exists w', mount (storage w) = Ok w'
       /\ ratings w' = [Num 7; Num 50; Num 30; Num 50; Num 50; Num 50]
       /\ userName (state w') = String dquote "Al".
Proof.
  intros w.
  assert (H1 : stored_vector_ok ∅).
  { intros j a Ht. vm_compute in Ht. discriminate. }
  assert (H2 : reachable ∅ w).
  { repeat (apply reach_step; [|cbn; try lia; exact I]).
    apply reach_mount. reflexivity. }
  split; [exact H1|]. split; [exact H2|].
  destruct (reload_restores_page ∅ w H1 H2) as (w' & Hm & Hr & _ & Hn).
  exists w'. split; [exact Hm|]. split; [exact Hr|exact Hn].
Defined.

(** X17.  Loading a page again without touching it changes nothing in the
    storage: the mount from the storage a mount left completes and leaves
    that storage as it is. *)
Theorem second_mount_keeps_storage (sto : Storage) (w : World) :
  mount sto = Ok w ->
  exists w', mount (storage w) = Ok w' /\ storage w' = storage w.
Proof.
  intros Hm. pose proof (mount_persisted sto w Hm) as Hp.
  destruct (mount_storage sto w Hm) as [Hv Hn].
  destruct (reload_restores w Hp) as (w' & Hm' & Hr & _ & Hu).
  exists w'. split; [done|].
  destruct (mount_storage _ w' Hm') as [Hv' Hn'].
  apply map_eq. intros k. change (getItem k (storage w') = getItem k (storage w)).
  destruct (decide (k = needsPyramidValues)) as [->|Hkv];
    [by rewrite Hv', Hv, Hr|].
  destruct (decide (k = needsPyramidUserName)) as [->|Hkn];
    [by rewrite Hn', Hn, Hu|].
  apply mount_Ok in Hm' as (lv & hist & h1 & h2 & _ & _ & ->).
  unfold commit. cbn [storage]. rewrite run_effects_other by done.
  unfold persist_userName, persist_levelValues.
  by rewrite !getItem_setItem, !decide_False.
Qed.

Lemma second_mount_keeps_storage_witness :
  mount ∅ = Ok first_visit
  /\ exists w', mount (storage first_visit) = Ok w'
       /\ storage w' = storage first_visit.
Proof.
  assert (H : mount ∅ = Ok first_visit) by reflexivity.
  split; [exact H|]. exact (second_mount_keeps_storage ∅ first_visit H).
Defined.

(** ** The view *)

Lemma levels_lookup (i : nat) :
  (i < length LEVELS)%nat ->
  exists level color description,
    LEVELS !! i = Some level /\ COLORS !! i = Some color
    /\ DESCRIPTIONS !! level = Some description.
Proof.
  intros Hi. do 6 (destruct i as [|i]; [by eexists _, _, _|]).
  cbn in Hi. lia.
Qed.

Lemma pyramidData_lookup (w : World) (i : nat) (band : Band.t) :
  pyramidData w !! i = Some band ->
  (i < length LEVELS)%nat
  /\ LEVELS !! i = Some (Band.content band)
  /\ COLORS !! i = Band.backgroundColor band
  /\ Band.onClick band = SelectLevel i
  /\ Band.width band = read (ratings w) i.
Proof.
  unfold pyramidData. rewrite list_lookup_imap.
  destruct (LEVELS !! i) as [level|] eqn:E; [|done].
  intros [= <-]. split; [by eapply lookup_lt_Some|]. done.
Qed.

(** X18.  On every page reached from a sound storage the pyramid has six
    bands, one per level and in the order of the levels; band [i] carries
    the name of level [i] and the colour at position [i] of [COLORS], and
    its width is entry [i] of the rating vector, a number from 0 to 100. *)
Theorem pyramid_bands (sto0 : Storage) (w : World) :
  stored_vector_ok sto0 -> reachable sto0 w ->
  length (pyramidData w) = 6%nat
  /\ forall i band, pyramidData w !! i = Some band ->
       LEVELS !! i = Some (Band.content band)
       /\ Band.backgroundColor band = COLORS !! i
       /\ is_Some (Band.backgroundColor band)
       /\ exists z, Band.width band = Num z /\ 0 <= z <= 100
            /\ ratings w !! i = Some (Num z).
Proof.
  intros Hs Hr.
  destruct (reachable_invariant sto0 w Hs Hr) as ([Hlen Hall] & _ & _).
  split; [reflexivity|]. intros i band Hb.
  apply pyramidData_lookup in Hb as (Hi & Hl & Hc & _ & Hw).
  split; [done|]. split; [done|].
  destruct (levels_lookup i Hi) as (l & c & d & _ & Hc' & _).
  split; [rewrite <- Hc, Hc'; by eexists|].
  destruct (lookup_lt_is_Some_2 (ratings w) i) as [v Hv];
    [cbn in Hi; lia|].
  pose proof (Forall_lookup_1 _ _ _ _ Hall Hv) as Hrat.
  destruct v as [z|]; [|done]. exists z. rewrite Hw. unfold read.
  by rewrite Hv.
Qed.

Lemma pyramid_bands_witness :
  let w := step first_visit (SliderChange 2 30) in
  stored_vector_ok ∅ /\ reachable ∅ w
  /\ length (pyramidData w) = 6%nat
  /\ map Band.width (pyramidData w)
     = [Num 50; Num 50; Num 30; Num 50; Num 50; Num 50]
  /\ map Band.backgroundColor (pyramidData w) = map Some COLORS.
Proof.
  intros w.
  assert (H1 : stored_vector_ok ∅).
  { intros j a Ht. vm_compute in Ht. discriminate. }
  assert (H2 : reachable ∅ w).
  { apply reach_step; [apply reach_mount; reflexivity|]. cbn. lia. }
  split; [exact H1|]. split; [exact H2|].
  split; [exact (proj1 (pyramid_bands ∅ w H1 H2))|].
  split; reflexivity.
Defined.

(** X19.  A click on band [i] of the pyramid is an event the invariant of
    the rating vector allows (its index is below six), and it opens the
    dialog on that band: the title is the band's name, the colour the
    band's colour, the value the band's width, and there is a description
    to show. *)
Theorem band_click_opens_dialog (w : World) (i : nat) (band : Band.t) :
  pyramidData w !! i = Some band ->
  ui_event (Band.onClick band)
  /\ let w' := step w (Band.onClick band) in
     dialog_open w' = true
     /\ dialog_title w' = Some (Band.content band)
     /\ dialog_color w' = Band.backgroundColor band
     /\ dialog_value w' = Some (Band.width band)
     /\ is_Some (dialog_description w').
Proof.
  intros Hb. apply pyramidData_lookup in Hb as (Hi & Hl & Hc & -> & Hw).
  split; [exact Hi|]. intros w'. subst w'.
  unfold dialog_open, dialog_title, dialog_color, dialog_value,
    dialog_description.
  change (selectedLevel (state (step w (SelectLevel i)))) with (Some i).
  change (ratings (step w (SelectLevel i))) with (ratings w).
  cbn [mbind option_bind]. rewrite Hw.
  split; [done|]. split; [done|]. split; [done|]. split; [done|].
  destruct (levels_lookup i Hi) as (l & c & d & Hl' & _ & Hd).
  rewrite Hl'. cbn [mbind option_bind]. rewrite Hd. by eexists.
Qed.

Lemma band_click_opens_dialog_witness :
  exists band,
    pyramidData first_visit !! 1%nat = Some band
    /\ dialog_title (step first_visit (Band.onClick band)) = Some "Security"
    /\ dialog_value (step first_visit (Band.onClick band)) = Some (Num 50).
Proof.
  eexists. split; [reflexivity|].
  match goal with
  | |- context [Band.onClick ?b] =>
      assert (H : pyramidData first_visit !! 1%nat = Some b) by reflexivity;
      destruct (band_click_opens_dialog first_visit 1 b H)
        as (_ & _ & Ht & _ & Hv & _)
  end.
  split; [exact Ht|exact Hv].
Defined.

(** X20.  On every page reached from a sound storage an open dialog has
    something to show in every place: the name, the colour and the
    description of the selected level exist, and the value under its
    slider is a number from 0 to 100. *)
Theorem open_dialog_is_defined (sto0 : Storage) (w : World) :
  stored_vector_ok sto0 -> reachable sto0 w -> dialog_open w = true ->
  exists title color description z,
    dialog_title w = Some title
    /\ dialog_color w = Some color
    /\ dialog_description w = Some description
    /\ dialog_value w = Some (Num z) /\ 0 <= z <= 100.
Proof.
  intros Hs Hr Ho.
  destruct (reachable_invariant sto0 w Hs Hr) as ([Hlen Hall] & _ & Hsel).
  unfold dialog_open, dialog_title, dialog_color, dialog_description,
    dialog_value in *.
  destruct (selectedLevel (state w)) as [i|]; [|done].
  specialize (Hsel i eq_refl).
  destruct (levels_lookup i Hsel) as (l & c & d & Hl & Hc & Hd).
  destruct (lookup_lt_is_Some_2 (ratings w) i) as [v Hv];
    [cbn in Hsel; lia|].
  pose proof (Forall_lookup_1 _ _ _ _ Hall Hv) as Hrat.
  destruct v as [z|]; [|done].
  exists l, c, d, z. cbn [mbind option_bind]. rewrite Hl, Hc.
  cbn [mbind option_bind]. rewrite Hd. unfold read. rewrite Hv. done.
Qed.

Lemma open_dialog_is_defined_witness :
  let w := run first_visit [SelectLevel 5; DialogSliderChange 80] in
  stored_vector_ok ∅ /\ reachable ∅ w /\ dialog_open w = true
  /\ (exists description, dialog_description w = Some description)
  /\ dialog_title w = Some "Self Actualization"
  /\ dialog_value w = Some (Num 80).
Proof.
  intros w.
  assert (H1 : stored_vector_ok ∅).
  { intros j a Ht. vm_compute in Ht. discriminate. }
  assert (H2 : reachable ∅ w).
  { repeat (apply reach_step; [|cbn; lia]).
    apply reach_mount. reflexivity. }
  assert (H3 : dialog_open w = true) by reflexivity.
  split; [exact H1|]. split; [exact H2|]. split; [exact H3|].
  destruct (open_dialog_is_defined ∅ w H1 H2 H3)
    as (t & c & d & z & _ & _ & Hd & _).
  split; [exists d; exact Hd|]. split; reflexivity.
Defined.

Lemma chart_row_cells (f : string -> string) (h : Heap) (s : Snapshot.t) :
  chart_row f h s !! "date" = Some (CStr (f (Snapshot.date s)))
  /\ chart_row f h s !! "userName"
     = Some (CStr (or_else (Snapshot.userName s) "Unknown"))
  /\ forall i level, LEVELS !! i = Some level ->
       chart_row f h s !! level
       = Some (CVal (read (deref h (Snapshot.values s)) i)).
Proof.
  split; [reflexivity|]. split; [reflexivity|].
  intros i level Hl.
  do 6 (destruct i as [|i]; [injection Hl as <-; reflexivity|]).
  done.
Qed.

(** X21.  The history chart has one row per snapshot, in the order of the
    history.  The row of a snapshot carries under each level's name the
    entry of the snapshot's values at that level's position ([undefined]
    where the array is shorter), under [date] the rendered date and under
    [userName] the snapshot's name, or Unknown when that name is empty;
    no level name hides these two. *)
Theorem chart_rows (f : string -> string) (w : World) :
  length (chartData f w) = length (history (state w))
  /\ forall k s, history (state w) !! k = Some s ->
       exists row,
         chartData f w !! k = Some row
         /\ row !! "date" = Some (CStr (f (Snapshot.date s)))
         /\ row !! "userName"
            = Some (CStr (or_else (Snapshot.userName s) "Unknown"))
         /\ forall i level, LEVELS !! i = Some level ->
              row !! level
              = Some (CVal (read (deref (heap w) (Snapshot.values s)) i)).
Proof.
  split; [apply length_map|]. intros k s Hk.
  exists (chart_row f (heap w) s). split.
  - unfold chartData. change map with (@fmap list _). 
    by rewrite list_lookup_fmap, Hk.
  - apply chart_row_cells.
Qed.

Lemma chart_rows_witness :
  let w := run first_visit
             [SliderChange 2 30; NameInput "Al";
              ClickSave "2024-05-01T10:00:00.000Z"] in
  exists s row,
    history (state w) !! 0%nat = Some s
    /\ chartData (fun d => d) w !! 0%nat = Some row
    /\ row !! "Happiness" = Some (CVal (Num 30))
    /\ row !! "userName" = Some (CStr "Al").
Proof.
  intros w. eexists.
  match goal with
  | |- exists row, ?l !! _ = Some ?s /\ _ =>
      assert (H : l !! 0%nat = Some s) by reflexivity
  end.
  destruct (proj2 (chart_rows (fun d => d) w) 0%nat _ H)
    as (row & Hr & _ & Hn & Hc).
  exists row. split; [exact H|]. split; [exact Hr|].
  split; [exact (Hc 2%nat "Happiness" eq_refl)|exact Hn].
Defined.

(** X22.  A save with a name that is not blank adds a last row to the
    chart that shows the ratings on screen, level by level, and the user
    name itself, never Unknown. *)
Theorem save_adds_chart_row (f : string -> string) (w : World)
    (now : string) :
  ~ blank (userName (state w)) ->
  exists row,
    last (chartData f (step w (ClickSave now))) = Some row
    /\ row !! "date" = Some (CStr (f now))
    /\ row !! "userName" = Some (CStr (userName (state w)))
    /\ forall i level, LEVELS !! i = Some level ->
         row !! level = Some (CVal (read (ratings w) i)).
Proof.
  intros Hb. assert (Hne : userName (state w) <> "").
  { intros E. apply Hb. by rewrite E. }
  rewrite <- save_disabled_blank in Hb.
  unfold step, handle. destruct (save_disabled (state w)); [done|].
  unfold saveSnapshot. cbn [alloc]. unfold chartData, commit.
  cbn [heap state apply_updates setHistory history from_option id].
  rewrite map_app. cbn [map]. rewrite last_snoc. eexists. split; [done|].
  destruct (chart_row_cells f (heap w ++ [deref (heap w) (levelValues (state w))])
    (Snapshot.mk now (length (heap w)) (userName (state w))))
    as (Hd & Hn & Hc).
  split; [exact Hd|]. split.
  - rewrite Hn. cbn. by destruct (userName (state w)).
  - intros i level Hl. rewrite (Hc i level Hl). cbn [Snapshot.values].
    by rewrite deref_snoc.
Qed.

Lemma save_adds_chart_row_witness :
  let w := run first_visit [SliderChange 2 30; NameInput "Al"] in
  ~ blank (userName (state w))
  /\ exists row,
       last (chartData (fun d => d)
               (step w (ClickSave "2024-05-01T10:00:00.000Z"))) = Some row
       /\ row !! "userName" = Some (CStr "Al").
Proof.
  intros w.
  assert (H : ~ blank (userName (state w))).
  { cbn. intros [Hc _]. vm_compute in Hc. discriminate. }
  split; [exact H|].
  destruct (save_adds_chart_row (fun d => d) w "2024-05-01T10:00:00.000Z" H)
    as (row & Hl & _ & Hn & _).
  exists row. split; [exact Hl|exact Hn].
Defined.

(** X23.  A mount writes the rating vector key and the user name key and
    nothing else: the history key and every other key of the storage are
    after the mount what they were before. *)
Theorem mount_storage_frame (sto : Storage) (w : World) (k : string) :
  mount sto = Ok w ->
  k <> needsPyramidValues -> k <> needsPyramidUserName ->
  getItem k (storage w) = getItem k sto.
Proof.
  intros Hm Hv Hn.
  apply mount_Ok in Hm as (lv & hist & h1 & h2 & _ & _ & ->).
  unfold commit. cbn [storage]. rewrite run_effects_other by done.
  unfold persist_userName, persist_levelValues.
  by rewrite !getItem_setItem, !decide_False.
Qed.

Lemma mount_storage_frame_witness :
  let sto : Storage :=
    setItem "theme" "dark" (setItem needsPyramidHistory "[]" ∅) in
  exists w, mount sto = Ok w
    /\ getItem "theme" (storage w) = Some "dark"
    /\ getItem needsPyramidHistory (storage w) = Some "[]".
Proof.
  intros sto. destruct (mount sto) as [w|] eqn:Hm; [|by vm_compute in Hm].
  exists w. split; [reflexivity|].
  split.
  - rewrite (mount_storage_frame sto w "theme" Hm); [reflexivity|done..].
  - rewrite (mount_storage_frame sto w needsPyramidHistory Hm);
      [reflexivity|done..].
Defined.
